(** * tcpserv: length-prefixed request/response over a byte stream

    A shallow embedding of [tcpserv.py] (Python 2): the [struct] calls on
    the format ["!I"], the socket calls the module makes, the exact-read
    loop [_recvn], the client call [request] and the per-connection task
    [_server].  Python integers are [Z], a [str] is a list of bytes, a
    socket is a record threaded through a state-and-error monad, and the
    [while] loop of [_recvn] runs on fuel. *)

From Stdlib Require Import ZArith String List Bool Lia.
From Stdlib Require Import Strings.Byte.
Import ListNotations.
Open Scope string_scope.
Open Scope list_scope.
Open Scope Z_scope.

(** ** Python values and outcomes *)

Definition bytes := list byte.

(** [len(x)] of a Python sequence. *)
Definition len {A : Type} (l : list A) : Z := Z.of_nat (length l).

(** The values [type(data) != str] tells apart: a [str], or something else. *)
Inductive pyval : Type :=
  | PyStr (s : bytes)
  | PyInt (z : Z)
  | PyNone.

(** The exceptions the module meets.  [ValueError] is what the module raises
    on a payload it rejects; [StructError] is [struct.error]; [SocketError]
    is [socket.error]; [OverflowError] is what a socket call raises on a
    size that does not fit the C [int] it is parsed into. *)
Inductive exn : Type :=
  | ValueError (msg : string)
  | StructError (msg : string)
  | SocketError (msg : string)
  | OverflowError (msg : string).

(** A call returns, raises, or is still inside a loop when the fuel is gone. *)
Inductive res (A : Type) : Type :=
  | Ret (a : A)
  | Raise (e : exn)
  | Spin.
Arguments Ret {A} a.
Arguments Raise {A} e.
Arguments Spin {A}.

(** ** [struct.pack] and [struct.unpack] on ["!I"] *)

Module Struct.

Definition byte_of_Z (z : Z) : byte :=
  match Byte.of_N (Z.to_N (Z.land z 255)) with
  | Some b => b
  | None => x00
  end.

Definition Z_of_byte (b : byte) : Z := Z.of_N (Byte.to_N b).

(** [struct.pack(fmt, v)]: ["!I"] is an unsigned 4-byte integer in network
    byte order; a value outside [0, 4294967295] is a [struct.error]. *)
Definition pack (fmt : string) (v : Z) : res bytes :=
  if String.eqb fmt "!I" then
    if (0 <=? v) && (v <=? 4294967295) then
      Ret [byte_of_Z (Z.shiftr v 24); byte_of_Z (Z.shiftr v 16);
           byte_of_Z (Z.shiftr v 8); byte_of_Z v]
    else Raise (StructError "'I' format requires 0 <= number <= 4294967295")
  else Raise (StructError "bad char in struct format").

(** [struct.unpack(fmt, b)[0]]: the string must hold exactly 4 bytes. *)
Definition unpack (fmt : string) (b : bytes) : res Z :=
  if String.eqb fmt "!I" then
    match b with
    | [b3; b2; b1; b0] =>
        Ret (Z.lor (Z.lor (Z.lor (Z.shiftl (Z_of_byte b3) 24)
                                 (Z.shiftl (Z_of_byte b2) 16))
                          (Z.shiftl (Z_of_byte b1) 8))
                   (Z_of_byte b0))
    | _ => Raise (StructError "unpack requires a string argument of length 4")
    end
  else Raise (StructError "bad char in struct format").

End Struct.

(** ** Module constants (lines 40-48) *)

Definition DATA_SIZE_TYPE : string := "!I".

Definition DATA_SIZE_LEN : Z :=
  match Struct.pack DATA_SIZE_TYPE 0 with
  | Ret b => len b
  | _ => 0
  end.

Definition MAX_DATA : Z := 2 ^ (DATA_SIZE_LEN * 8).

(** ** Sockets *)

(** The calls made on a socket, in order.  A [Recv] keeps the requested
    buffer size and the string the call returned. *)
Inductive call : Type :=
  | Connect (host : string) (port : Z)
  | SendAll (d : bytes)
  | Recv (bufsize : Z) (got : bytes)
  | Close.

(** The largest and the smallest C [int]: [sock.recv] parses its buffer
    size into one. *)
Definition INT_MAX : Z := 2147483647.
Definition INT_MIN : Z := -2147483648.

(** One end of a connection.  [inbox] holds the segments already on their
    way to this end, in order; [remote], when present, is the other end's
    whole answer to what this end has written, put in flight when this end
    first waits on an empty inbox; once everything in flight has been read
    the other end has closed, and a read returns the empty string.
    [outbox] is every byte that left this end.  [calls] are the calls that
    returned.  [faults] is what the transport has in store for the reads
    and writes to come, one entry per call: [None], or no entry, and the
    call goes through; [Some k] and it raises [socket.error], a write
    having passed on the first [k] bytes of its data at most. *)
Record socket : Type := Socket {
  inbox : list bytes;
  remote : option (bytes -> list bytes);
  outbox : bytes;
  calls : list call;
  faults : list (option nat)
}.

(** A socket on which no call will fail. *)
Definition mkSocket (inbox : list bytes) (remote : option (bytes -> list bytes))
    (outbox : bytes) (calls : list call) : socket :=
  Socket inbox remote outbox calls [].

(** What answers at an address: the other end's answer to what it is sent,
    and the faults the connection to it will meet. *)
Record peer : Type := mkPeer {
  answer : bytes -> list bytes;
  weather : list (option nat)
}.

(** What is listening where. *)
Definition network := string -> Z -> option peer.

(** [socket.socket(AF_INET, SOCK_STREAM)]. *)
Definition fresh : socket := mkSocket [] None [] [].

(** The socket [accept] hands to the server task, with the segments the
    client has sent. *)
Definition accepted (segs : list bytes) : socket := mkSocket segs None [] [].

(** State (the socket) and outcome. *)
Definition M (A : Type) : Type := socket -> socket * res A.

Definition ret {A : Type} (a : A) : M A := fun s => (s, Ret a).

Definition raise {A : Type} (e : exn) : M A := fun s => (s, Raise e).

Definition lift {A : Type} (r : res A) : M A := fun s => (s, r).

Definition bind {A B : Type} (c : M A) (k : A -> M B) : M B :=
  fun s =>
    match c s with
    | (s', Ret a) => k a s'
    | (s', Raise e) => (s', Raise e)
    | (s', Spin) => (s', Spin)
    end.

Notation "x <- c ;; k" := (bind c (fun x => k))
  (at level 61, c at next level, right associativity).
Notation "c ;;; k" := (bind c (fun _ => k))
  (at level 61, right associativity).

Definition log (c : call) (s : socket) : socket :=
  Socket (inbox s) (remote s) (outbox s) (calls s ++ [c]) (faults s).

(** [sock.connect((host, port))]: [socket.error] when nothing listens. *)
Definition connect (net : network) (host : string) (port : Z) : M unit :=
  fun s =>
    match net host port with
    | Some p =>
        (Socket (inbox s) (Some (answer p)) (outbox s)
                (calls s ++ [Connect host port]) (weather p), Ret tt)
    | None => (s, Raise (SocketError "Connection refused"))
    end.

(** [sock.sendall(d)]: all of [d] leaves, or [socket.error] is raised with
    part of [d] gone at most. *)
Definition sendall (d : bytes) : M unit :=
  fun s =>
    match faults s with
    | Some k :: fs =>
        (Socket (inbox s) (remote s) (outbox s ++ firstn k d) (calls s) fs,
         Raise (SocketError "Broken pipe"))
    | _ =>
        (Socket (inbox s) (remote s) (outbox s ++ d) (calls s ++ [SendAll d])
                (tl (faults s)), Ret tt)
    end.

(** [sock.close()]. *)
Definition close : M unit := fun s => (log Close s, Ret tt).

(** Segments that carry no byte are never seen by a read. *)
Fixpoint strip (q : list bytes) : list bytes :=
  match q with
  | [] :: q' => strip q'
  | _ => q
  end.

(** With nothing left in flight, the other end's answer arrives. *)
Definition arrive (s : socket) : socket :=
  match strip (inbox s), remote s with
  | [], Some f => Socket (f (outbox s)) None (outbox s) (calls s) (faults s)
  | _, _ => s
  end.

(** [sock.recv(bufsize)].  The size is parsed into a C [int] first
    ([OverflowError] outside its range) and must not be negative
    ([ValueError]); then the transport may fail ([socket.error]); otherwise
    the call returns at most [bufsize] bytes of the first segment in flight,
    or the empty string when the other end has closed. *)
Definition recv (bufsize : Z) : M bytes :=
  fun s =>
    if bufsize <? INT_MIN then
      (s, Raise (OverflowError "signed integer is less than minimum"))
    else if INT_MAX <? bufsize then
      (s, Raise (OverflowError "signed integer is greater than maximum"))
    else if bufsize <? 0 then
      (s, Raise (ValueError "negative buffersize in recv"))
    else
      match faults s with
      | Some _ :: fs =>
          (Socket (inbox s) (remote s) (outbox s) (calls s) fs,
           Raise (SocketError "Connection reset by peer"))
      | _ =>
          let s1 := arrive s in
          match strip (inbox s1) with
          | [] =>
              (Socket [] (remote s1) (outbox s1)
                      (calls s1 ++ [Recv bufsize []]) (tl (faults s1)),
               Ret [])
          | seg :: q =>
              let got := firstn (Z.to_nat bufsize) seg in
              (Socket (skipn (Z.to_nat bufsize) seg :: q) (remote s1)
                      (outbox s1) (calls s1 ++ [Recv bufsize got])
                      (tl (faults s1)), Ret got)
          end
      end.

(** ** [_recvn] (lines 116-126) *)

(** The [while m < n] loop; [buf] is the list of strings read so far. *)
Fixpoint _recvn_loop (fuel : nat) (n m : Z) (buf : list bytes) : M bytes :=
  if m <? n then
    match fuel with
    | O => fun s => (s, Spin)
    | S fuel' =>
        pack <- recv (n - m) ;;
        _recvn_loop fuel' n (m + len pack) (buf ++ [pack])
    end
  else ret (concat buf).

Definition _recvn (fuel : nat) (n : Z) : M bytes := _recvn_loop fuel n 0 [].

(** ** [request] (lines 88-113) *)

(** The first component is the socket the call created, if it got that far. *)
Definition request (net : network) (fuel : nat)
    (host : string) (port : Z) (data : pyval) : option socket * res bytes :=
  match data with
  | PyStr d =>
      if len d >? MAX_DATA then
        (None, Raise (ValueError "request data must have len <= %d"))
      else
        let (sock, r) :=
          (connect net host port ;;;
           b4 <- lift (Struct.pack DATA_SIZE_TYPE (len d)) ;;
           sendall b4 ;;;
           sendall d ;;;
           b4 <- _recvn fuel DATA_SIZE_LEN ;;
           n <- lift (Struct.unpack DATA_SIZE_TYPE b4) ;;
           data <- _recvn fuel n ;;
           close ;;;
           ret data) fresh in
        (Some sock, r)
  | _ => (None, Raise (ValueError "data must be of type <str>"))
  end.

(** ** [_server] (lines 129-146) *)

Definition _server (fuel : nat) (handler : bytes -> res pyval) : M unit :=
  b4 <- _recvn fuel DATA_SIZE_LEN ;;
  n <- lift (Struct.unpack DATA_SIZE_TYPE b4) ;;
  req <- _recvn fuel n ;;
  resp <- lift (handler req) ;;
  match resp with
  | PyStr r =>
      if len r >? MAX_DATA then
        raise (ValueError "handler return value must have len <= %d")
      else
        b4 <- lift (Struct.pack DATA_SIZE_TYPE (len r)) ;;
        sendall b4 ;;;
        sendall r
  | _ => raise (ValueError "handler return value must be of type <str>")
  end.

(** ** [listen] (lines 51-85), as a peer sees it *)

(** The state in which the task of one connection leaves its socket, the
    client's bytes having reached it cut into segments by [cut_in]. *)
Definition served (fuel : nat) (handler : bytes -> res pyval)
    (cut_in : bytes -> list bytes) (sent : bytes) : socket :=
  fst (_server fuel handler (accepted (cut_in sent))).

(** [listen(host, port, handler)] starts one [_server] task per accepted
    connection; whatever that task wrote travels back cut by [cut_out].
    The transport is sound in both directions. *)
Definition listen (fuel : nat) (cut_in cut_out : bytes -> list bytes)
    (host : string) (port : Z) (handler : bytes -> res pyval) : network :=
  fun h p =>
    if String.eqb h host && (p =? port) then
      Some (mkPeer
              (fun sent => cut_out (outbox (served fuel handler cut_in sent)))
              [])
    else None.

(** The handler of [_test] (lines 151-152). *)
Definition echo_handler (data : bytes) : res pyval := Ret (PyStr data).

(** One byte per segment. *)
Definition bytewise (l : bytes) : list bytes := map (fun b => [b]) l.

(** ** Views used to state the properties *)

(** Every byte this end can still read, in order. *)
Definition pending (s : socket) : bytes :=
  concat (inbox s) ++
  match remote s with
  | Some f => concat (f (outbox s))
  | None => []
  end.

(** The writing half shared by [request] (lines 106-108) and [_server]
    (lines 144-146): the packed length, then the payload. *)
Definition send_frame (d : bytes) : M unit :=
  b4 <- lift (Struct.pack DATA_SIZE_TYPE (len d)) ;;
  sendall b4 ;;;
  sendall d.

(** The reading half shared by [request] (lines 109-111) and [_server]
    (lines 136-138). *)
Definition read_frame (fuel : nat) : M bytes :=
  b4 <- _recvn fuel DATA_SIZE_LEN ;;
  n <- lift (Struct.unpack DATA_SIZE_TYPE b4) ;;
  _recvn fuel n.

(** A run of reads that never asks for more than is still missing:
    each call is a [Recv] whose buffer size is at most [missing], and what
    it returned is taken off [missing] for the calls after it. *)
Fixpoint within_budget (missing : Z) (cs : list call) : Prop :=
  match cs with
  | [] => True
  | Recv bufsize got :: cs' =>
      bufsize <= missing /\ len got <= bufsize /\
      within_budget (missing - len got) cs'
  | _ :: _ => False
  end.

(** The bytes written by the calls of a log. *)
Fixpoint written (cs : list call) : bytes :=
  match cs with
  | [] => []
  | SendAll d :: cs' => d ++ written cs'
  | _ :: cs' => written cs'
  end.

(** A call that only reads. *)
Definition is_read (c : call) : Prop :=
  match c with
  | Recv _ _ => True
  | _ => False
  end.

(** What [_server] does with the handler's return value (lines 140-146). *)
Definition reply (resp : pyval) : M unit :=
  match resp with
  | PyStr r =>
      if len r >? MAX_DATA then
        raise (ValueError "handler return value must have len <= %d")
      else
        b4 <- lift (Struct.pack DATA_SIZE_TYPE (len r)) ;;
        sendall b4 ;;;
        sendall r
  | _ => raise (ValueError "handler return value must be of type <str>")
  end.

(** The string ["1"*k], as [_test] builds its payload (line 157). *)
Definition ones (k : Z) : bytes := repeat x31 (Z.to_nat k).

(** A way of cutting a stream into segments loses and adds nothing. *)
Definition faithful (cut : bytes -> list bytes) : Prop :=
  forall l, concat (cut l) = l.

(** An answer that stops before the frame it starts is complete: fewer
    than the 4 bytes of the length, or fewer payload bytes than the length
    announces. *)
Definition truncated (answer : bytes) : Prop :=
  len answer < DATA_SIZE_LEN \/
  exists b4 n body,
    answer = b4 ++ body /\
    Struct.pack DATA_SIZE_TYPE n = Ret b4 /\
    len body < n <= INT_MAX.

(** A read that returned at least one byte. *)
Definition fruitful (c : call) : Prop :=
  match c with
  | Recv _ got => got <> []
  | _ => False
  end.

(** What a read does once its size is accepted and the transport holds. *)
Definition recv_through_result (k : Z) (s : socket) : socket * res bytes :=
  let s1 := arrive s in
  match strip (inbox s1) with
  | [] =>
      (Socket [] (remote s1) (outbox s1)
              (calls s1 ++ [Recv k []]) (tl (faults s1)), Ret [])
  | seg :: q =>
      let got := firstn (Z.to_nat k) seg in
      (Socket (skipn (Z.to_nat k) seg :: q) (remote s1)
              (outbox s1) (calls s1 ++ [Recv k got])
              (tl (faults s1)), Ret got)
  end.

(** * Properties *)

(** ** Small runs *)

Example DATA_SIZE_LEN_is_4 : DATA_SIZE_LEN = 4.
Proof. reflexivity. Qed.

Example MAX_DATA_is_2_32 : MAX_DATA = 4294967296.
Proof. reflexivity. Qed.

Example request_echo_hi :
  let net := listen 8 bytewise bytewise "localhost" 55555 echo_handler in
  snd (request net 8 "localhost" 55555 (PyStr [x68; x69])) = Ret [x68; x69].
Proof. vm_compute. reflexivity. Qed.

(** ** The length field *)

Lemma len_app {A : Type} (l1 l2 : list A) : len (l1 ++ l2) = len l1 + len l2.
Proof. unfold len. rewrite length_app. lia. Qed.

Lemma len_nonneg {A : Type} (l : list A) : 0 <= len l.
Proof. unfold len. lia. Qed.

Lemma len_nil {A : Type} : len (@nil A) = 0.
Proof. reflexivity. Qed.

Lemma Z_of_byte_of_Z (z : Z) :
  Struct.Z_of_byte (Struct.byte_of_Z z) = z mod 256.
Proof.
  unfold Struct.Z_of_byte, Struct.byte_of_Z.
  change 255 with (Z.ones 8). rewrite Z.land_ones by lia.
  change (2 ^ 8) with 256.
  assert (Hr : 0 <= z mod 256 < 256) by (apply Z.mod_pos_bound; lia).
  destruct (Byte.of_N (Z.to_N (z mod 256))) as [b|] eqn:E.
  - apply Byte.to_of_N in E. rewrite E. apply Z2N.id. lia.
  - apply Byte.of_N_None_iff in E. lia.
Qed.

Lemma mod256_testbit (a i : Z) :
  0 <= i -> Z.testbit (a mod 256) i = (i <? 8) && Z.testbit a i.
Proof.
  intros Hi. change 256 with (2 ^ 8).
  destruct (Z.ltb_spec i 8).
  - rewrite Z.mod_pow2_bits_low by lia. reflexivity.
  - rewrite Z.mod_pow2_bits_high by lia. reflexivity.
Qed.

Lemma high_bits_zero (v i : Z) :
  0 <= v < 2 ^ 32 -> 32 <= i -> Z.testbit v i = false.
Proof.
  intros Hv Hi. rewrite <- (Z.mod_small v (2 ^ 32)) by lia.
  apply Z.mod_pow2_bits_high. lia.
Qed.

(** [unpack] undoes [pack] on every value [pack] takes. *)
Lemma unpack_pack (v : Z) (b4 : bytes) :
  Struct.pack DATA_SIZE_TYPE v = Ret b4 ->
  Struct.unpack DATA_SIZE_TYPE b4 = Ret v /\ len b4 = 4.
Proof.
  unfold Struct.pack, Struct.unpack, DATA_SIZE_TYPE. simpl String.eqb. cbv iota.
  destruct (Z.leb_spec 0 v); destruct (Z.leb_spec v 4294967295);
    simpl andb; cbv iota; intros E; inversion E; subst; clear E.
  split; [| reflexivity].
  f_equal. rewrite !Z_of_byte_of_Z.
  apply Z.bits_inj'. intros i Hi.
  rewrite !Z.lor_spec, !Z.shiftl_spec by lia.
  assert (Hv : 0 <= v < 2 ^ 32) by (change (2 ^ 32) with 4294967296; lia).
  destruct (Z.ltb_spec i 8); [| destruct (Z.ltb_spec i 16);
    [| destruct (Z.ltb_spec i 24); [| destruct (Z.ltb_spec i 32)]]].
  - rewrite (Z.testbit_neg_r _ (i - 24)), (Z.testbit_neg_r _ (i - 16)),
      (Z.testbit_neg_r _ (i - 8)) by lia.
    rewrite mod256_testbit by lia.
    destruct (Z.ltb_spec i 8); [reflexivity | lia].
  - rewrite (Z.testbit_neg_r _ (i - 24)), (Z.testbit_neg_r _ (i - 16)) by lia.
    rewrite !mod256_testbit by lia. rewrite Z.shiftr_spec by lia.
    replace (i - 8 + 8) with i by lia.
    destruct (Z.ltb_spec (i - 8) 8); destruct (Z.ltb_spec i 8); try lia.
    simpl. rewrite orb_false_r. reflexivity.
  - rewrite (Z.testbit_neg_r _ (i - 24)) by lia.
    rewrite !mod256_testbit by lia. rewrite !Z.shiftr_spec by lia.
    replace (i - 16 + 16) with i by lia.
    destruct (Z.ltb_spec (i - 16) 8); destruct (Z.ltb_spec (i - 8) 8);
      destruct (Z.ltb_spec i 8); try lia.
    simpl. rewrite !orb_false_r. reflexivity.
  - rewrite !mod256_testbit by lia. rewrite !Z.shiftr_spec by lia.
    replace (i - 24 + 24) with i by lia.
    destruct (Z.ltb_spec (i - 24) 8); destruct (Z.ltb_spec (i - 16) 8);
      destruct (Z.ltb_spec (i - 8) 8); destruct (Z.ltb_spec i 8); try lia.
    simpl. rewrite !orb_false_r. reflexivity.
  - rewrite !mod256_testbit by lia.
    destruct (Z.ltb_spec (i - 24) 8); destruct (Z.ltb_spec (i - 16) 8);
      destruct (Z.ltb_spec (i - 8) 8); destruct (Z.ltb_spec i 8); try lia.
    simpl. symmetry. apply high_bits_zero; lia.
Qed.

Lemma pack_in_range (v : Z) :
  0 <= v < MAX_DATA -> exists b4, Struct.pack DATA_SIZE_TYPE v = Ret b4.
Proof.
  change MAX_DATA with 4294967296. intros Hv.
  unfold Struct.pack, DATA_SIZE_TYPE. simpl String.eqb. cbv iota.
  destruct (Z.leb_spec 0 v); [| lia].
  destruct (Z.leb_spec v 4294967295); [| lia].
  simpl. eexists. reflexivity.
Qed.

Lemma pack_out_of_range (v : Z) :
  MAX_DATA <= v ->
  Struct.pack DATA_SIZE_TYPE v =
  Raise (StructError "'I' format requires 0 <= number <= 4294967295").
Proof.
  change MAX_DATA with 4294967296. intros Hv.
  unfold Struct.pack, DATA_SIZE_TYPE. simpl String.eqb. cbv iota.
  destruct (Z.leb_spec v 4294967295); [lia |].
  rewrite andb_false_r. reflexivity.
Qed.

(** ** Strings of a given length *)

Lemma len_ones (k : Z) : 0 <= k -> len (ones k) = k.
Proof.
  intros H. unfold len, ones. rewrite repeat_length. apply Z2Nat.id. exact H.
Qed.

Opaque ones.

(** ** One read *)

Lemma concat_strip (q : list bytes) : concat (strip q) = concat q.
Proof.
  induction q as [| seg q IH]; [reflexivity |].
  destruct seg; simpl; [exact IH | reflexivity].
Qed.

Lemma strip_head (q q' : list bytes) (seg : bytes) :
  strip q = seg :: q' -> seg <> [].
Proof.
  induction q as [| a q IH]; simpl; [discriminate |].
  destruct a; [exact IH |]. intros E; inversion E; discriminate.
Qed.

Lemma arrive_spec (s : socket) :
  pending (arrive s) = pending s /\ outbox (arrive s) = outbox s /\
  calls (arrive s) = calls s /\
  (strip (inbox (arrive s)) = [] ->
   remote (arrive s) = None /\ pending s = []).
Proof.
  unfold arrive, pending.
  destruct (strip (inbox s)) as [| seg q] eqn:E.
  - assert (Hc : concat (inbox s) = []) by (rewrite <- concat_strip, E; reflexivity).
    destruct (remote s) as [f |] eqn:R; simpl.
    + rewrite Hc, app_nil_r. repeat split; try reflexivity.
      rewrite <- concat_strip, H. reflexivity.
    + rewrite R, Hc. repeat split; reflexivity.
  - repeat split; try reflexivity; rewrite E in H; discriminate.
Qed.

Lemma arrive_faults (s : socket) : faults (arrive s) = faults s.
Proof.
  unfold arrive. destruct (strip (inbox s)); [| reflexivity].
  destruct (remote s); reflexivity.
Qed.

Lemma recv_unfold (k : Z) (s : socket) :
  0 <= k <= INT_MAX ->
  match faults s with Some _ :: _ => False | _ => True end ->
  recv k s = recv_through_result k s.
Proof.
  intros Hk Hf. unfold recv, recv_through_result.
  assert (Hmin : INT_MIN <= k) by (unfold INT_MIN; lia).
  destruct (Z.ltb_spec k INT_MIN); [lia |].
  destruct (Z.ltb_spec INT_MAX k); [lia |].
  destruct (Z.ltb_spec k 0); [lia |].
  destruct (faults s) as [| [n |] fs];
    [reflexivity | contradiction | reflexivity].
Qed.

(** A read that the transport lets through. *)
Lemma recv_through (k : Z) (s : socket) :
  0 <= k <= INT_MAX ->
  match faults s with Some _ :: _ => False | _ => True end ->
  exists got s',
    recv k s = (s', Ret got) /\
    pending s = got ++ pending s' /\
    len got <= k /\
    outbox s' = outbox s /\
    calls s' = calls s ++ [Recv k got] /\
    faults s' = tl (faults s) /\
    (0 < k -> pending s <> [] -> got <> []).
Proof.
  intros Hk Hf. rewrite (recv_unfold k s Hk Hf). unfold recv_through_result.
  destruct (arrive_spec s) as (Hp & Ho & Hc & Hn).
  pose proof (arrive_faults s) as Hfa.
  cbv zeta.
  destruct (strip (inbox (arrive s))) as [| seg q] eqn:E.
  - destruct (Hn eq_refl) as [Hr Hnil].
    eexists [], _. split; [reflexivity |].
    unfold pending at 2. simpl. rewrite Hr.
    repeat split; auto; try (rewrite len_nil; lia).
    + rewrite Hc. reflexivity.
    + rewrite Hfa. reflexivity.
  - eexists _, _. split; [reflexivity |].
    assert (Hs : pending (arrive s) =
                 seg ++ concat q ++
                 match remote (arrive s) with
                 | Some f => concat (f (outbox (arrive s)))
                 | None => []
                 end).
    { unfold pending. rewrite <- concat_strip, E. simpl.
      rewrite <- app_assoc. reflexivity. }
    repeat split; simpl.
    + rewrite <- Hp, Hs. unfold pending. simpl.
      rewrite <- (firstn_skipn (Z.to_nat k) seg) at 1.
      rewrite <- !app_assoc. reflexivity.
    + unfold len. rewrite length_firstn. lia.
    + exact Ho.
    + rewrite Hc. reflexivity.
    + rewrite Hfa. reflexivity.
    + intros Hpos _ Hg. apply strip_head in E.
      destruct seg; [congruence |].
      destruct (Z.to_nat k) eqn:Ek; [lia | discriminate].
Qed.

Lemma recv_spec (k : Z) (s : socket) :
  0 <= k <= INT_MAX -> faults s = [] ->
  exists got s',
    recv k s = (s', Ret got) /\
    pending s = got ++ pending s' /\
    len got <= k /\
    outbox s' = outbox s /\
    calls s' = calls s ++ [Recv k got] /\
    faults s' = [] /\
    (0 < k -> pending s <> [] -> got <> []).
Proof.
  intros Hk Hf.
  destruct (recv_through k s Hk) as (got & s' & E & Hp & Hl & Ho & Hc & Hf' & Hne).
  { rewrite Hf. exact I. }
  exists got, s'. rewrite Hf in Hf'. auto 10.
Qed.

(** A read that raises: nothing is taken from the stream, nothing is
    written, and the size is out of range or the transport failed. *)
Lemma recv_raises (k : Z) (s s' : socket) (e : exn) :
  recv k s = (s', Raise e) ->
  pending s' = pending s /\ outbox s' = outbox s /\ calls s' = calls s /\
  (k < 0 \/ INT_MAX < k \/ faults s <> []) /\
  (faults s = [] -> faults s' = []).
Proof.
  unfold recv.
  destruct (Z.ltb_spec k INT_MIN) as [H1 | H1].
  { intros E; inversion E; subst. unfold INT_MIN in H1.
    repeat split; auto. left. lia. }
  destruct (Z.ltb_spec INT_MAX k) as [H2 | H2].
  { intros E; inversion E; subst. repeat split; auto. }
  destruct (Z.ltb_spec k 0) as [H3 | H3].
  { intros E; inversion E; subst. repeat split; auto. }
  destruct (faults s) as [| [n |] fs] eqn:Hf; cbv zeta.
  - destruct (strip (inbox (arrive s))); intros E; discriminate E.
  - intros E; inversion E; subst. unfold pending. simpl.
    split; [reflexivity |]. split; [reflexivity |]. split; [reflexivity |].
    split; [right; right; discriminate | intros F; discriminate F].
  - destruct (strip (inbox (arrive s))); intros E; discriminate E.
Qed.

Lemma recv_no_spin (k : Z) (s s' : socket) : recv k s <> (s', Spin).
Proof.
  unfold recv.
  destruct (k <? INT_MIN); [discriminate |].
  destruct (INT_MAX <? k); [discriminate |].
  destruct (k <? 0); [discriminate |].
  destruct (faults s) as [| [n |] fs]; cbv zeta;
    try discriminate; destruct (strip (inbox (arrive s))); discriminate.
Qed.

(** A read that returns, whatever the transport had in store. *)
Lemma recv_returns (k : Z) (s s' : socket) (got : bytes) :
  recv k s = (s', Ret got) ->
  0 <= k <= INT_MAX /\
  pending s = got ++ pending s' /\
  len got <= k /\
  outbox s' = outbox s /\
  calls s' = calls s ++ [Recv k got] /\
  faults s' = tl (faults s).
Proof.
  intros E.
  assert (Hk : 0 <= k <= INT_MAX).
  { unfold recv in E.
    destruct (Z.ltb_spec k INT_MIN); [discriminate E |].
    destruct (Z.ltb_spec INT_MAX k); [discriminate E |].
    destruct (Z.ltb_spec k 0); [discriminate E |]. lia. }
  assert (Hf : match faults s with Some _ :: _ => False | _ => True end).
  { unfold recv in E.
    destruct (k <? INT_MIN); [discriminate E |].
    destruct (INT_MAX <? k); [discriminate E |].
    destruct (k <? 0); [discriminate E |].
    destruct (faults s) as [| [n |] fs]; [exact I | discriminate E | exact I]. }
  destruct (recv_through k s Hk Hf)
    as (g & s0 & E0 & Hp & Hl & Ho & Hc & Hf' & _).
  rewrite E in E0. inversion E0; subst. auto 10.
Qed.

(** ** The loop of [_recvn] *)

Lemma recvn_loop_done (fuel : nat) (n m : Z) (buf : list bytes) (s : socket) :
  n <= m -> _recvn_loop fuel n m buf s = (s, Ret (concat buf)).
Proof.
  intros H. destruct fuel; simpl;
    (destruct (Z.ltb_spec m n); [lia | reflexivity]).
Qed.

Lemma recvn_loop_step (fuel : nat) (n m : Z) (buf : list bytes)
    (s s1 : socket) (got : bytes) :
  m < n -> recv (n - m) s = (s1, Ret got) ->
  _recvn_loop (S fuel) n m buf s =
  _recvn_loop fuel n (m + len got) (buf ++ [got]) s1.
Proof.
  intros H E. simpl. destruct (Z.ltb_spec m n); [| lia].
  unfold bind. rewrite E. reflexivity.
Qed.

Lemma recvn_loop_raise (fuel : nat) (n m : Z) (buf : list bytes)
    (s s1 : socket) (e : exn) :
  m < n -> recv (n - m) s = (s1, Raise e) ->
  _recvn_loop (S fuel) n m buf s = (s1, Raise e).
Proof.
  intros H E. simpl. destruct (Z.ltb_spec m n); [| lia].
  unfold bind. rewrite E. reflexivity.
Qed.

Lemma concat_snoc (buf : list bytes) (a b : bytes) :
  concat (buf ++ [a]) ++ b = concat buf ++ a ++ b.
Proof. rewrite concat_app. simpl. rewrite app_nil_r, app_assoc. reflexivity. Qed.

Lemma tl_nil_keeps {A : Type} (l : list A) : l = [] -> tl l = [].
Proof. intros ->. reflexivity. Qed.

(** Whatever the fuel, the transport and the way the loop ends: what it
    took from the stream is a prefix no longer than what was missing, every
    call that returned was a read within the budget, and nothing was
    written.  It raises only on a size [recv] refuses or on a fault of the
    transport. *)
Lemma recvn_loop_inv (fuel : nat) :
  forall (n m : Z) (buf : list bytes) (s s' : socket) (r : res bytes),
    _recvn_loop fuel n m buf s = (s', r) ->
    exists got cs,
      pending s = got ++ pending s' /\
      len got <= Z.max 0 (n - m) /\
      calls s' = calls s ++ cs /\
      within_budget (n - m) cs /\
      outbox s' = outbox s /\
      (faults s = [] -> faults s' = []) /\
      match r with
      | Ret x => x = concat buf ++ got /\ len got = Z.max 0 (n - m)
      | Raise _ => INT_MAX < n - m \/ faults s <> []
      | Spin => True
      end.
Proof.
  induction fuel as [| fuel IH]; intros n m buf s s' r E.
  - simpl in E. destruct (Z.ltb_spec m n); inversion E; subst; clear E;
      exists [], []; rewrite len_nil, !app_nil_r; simpl;
      repeat split; try lia; auto.
  - destruct (Z.lt_ge_cases m n) as [Hlt | Hge].
    + destruct (recv (n - m) s) as [s1 [g1 | e |]] eqn:Er.
      * destruct (recv_returns _ _ _ _ Er) as (Hk & Hp & Hl & Ho & Hc & Hf).
        rewrite (recvn_loop_step _ _ _ _ _ _ _ Hlt Er) in E.
        apply IH in E.
        destruct E as (g2 & cs & Hp2 & Hl2 & Hc2 & Hb & Ho2 & Hf2 & Hr).
        exists (g1 ++ g2), (Recv (n - m) g1 :: cs).
        pose proof (len_nonneg g1). pose proof (len_nonneg g2).
        assert (Hkeep : faults s = [] -> faults s1 = []).
        { intros F. rewrite Hf. apply tl_nil_keeps. exact F. }
        split; [| split; [| split; [| split; [| split; [| split]]]]].
        -- rewrite Hp, Hp2, app_assoc. reflexivity.
        -- rewrite len_app. lia.
        -- rewrite Hc2, Hc, <- app_assoc. reflexivity.
        -- simpl. split; [lia | split; [lia |]].
           replace (n - m - len g1) with (n - (m + len g1)) by lia. exact Hb.
        -- congruence.
        -- auto.
        -- destruct r as [x | e |]; auto.
           ++ destruct Hr as [Hx Hn]. split.
              ** rewrite Hx. apply concat_snoc.
              ** rewrite len_app. lia.
           ++ destruct Hr as [Hr | Hr]; [left; lia |].
              right. intros F. apply Hr. auto.
      * rewrite (recvn_loop_raise _ _ _ _ _ _ _ Hlt Er) in E.
        inversion E; subst; clear E.
        destruct (recv_raises _ _ _ _ Er) as (Hp & Ho & Hc & Hwhy & Hf).
        exists [], []. rewrite len_nil, app_nil_r. simpl.
        split; [symmetry; exact Hp |]. split; [lia |].
        split; [exact Hc |]. split; [exact I |]. split; [exact Ho |].
        split; [exact Hf |].
        destruct Hwhy as [Hneg | [Hbig | Hflt]]; [lia | left; exact Hbig
                                                 | right; exact Hflt].
      * exfalso. exact (recv_no_spin _ _ _ Er).
    + rewrite recvn_loop_done in E by lia. inversion E; subst; clear E.
      exists [], []. rewrite len_nil, !app_nil_r. simpl.
      repeat split; try lia; auto.
Qed.

(** With enough bytes still to come, a size [recv] accepts, a transport
    that holds and one unit of fuel per missing byte, the loop returns. *)
Lemma recvn_loop_returns (fuel : nat) :
  forall (n m : Z) (buf : list bytes) (s : socket),
    faults s = [] -> n - m <= INT_MAX ->
    n - m <= len (pending s) -> (Z.to_nat (n - m) <= fuel)%nat ->
    exists s' x, _recvn_loop fuel n m buf s = (s', Ret x).
Proof.
  induction fuel as [| fuel IH]; intros n m buf s Hh Hmax Hs Hf.
  - exists s, (concat buf). apply recvn_loop_done. lia.
  - destruct (Z.lt_ge_cases m n) as [Hlt | Hge].
    + destruct (recv_spec (n - m) s)
        as (g1 & s1 & Er & Hp & Hl & _ & _ & Hh1 & Hne);
        [lia | exact Hh |].
      rewrite (recvn_loop_step _ _ _ _ _ _ _ Hlt Er).
      assert (Hg : 0 < len g1).
      { assert (g1 <> []) as G.
        { apply Hne; [lia |]. intros N. rewrite N, len_nil in Hs. lia. }
        destruct g1; [congruence |]. unfold len. simpl. lia. }
      apply IH; [exact Hh1 | lia | | lia].
      rewrite Hp, len_app in Hs. lia.
    + exists s, (concat buf). apply recvn_loop_done. lia.
Qed.

(** With fewer bytes to come than are missing, a size [recv] accepts and a
    transport that holds, the loop is still running when any amount of fuel
    is spent. *)
Lemma recvn_loop_spins (fuel : nat) :
  forall (n m : Z) (buf : list bytes) (s : socket),
    faults s = [] -> n - m <= INT_MAX ->
    len (pending s) < n - m ->
    exists s', _recvn_loop fuel n m buf s = (s', Spin).
Proof.
  induction fuel as [| fuel IH]; intros n m buf s Hh Hmax Hs;
    pose proof (len_nonneg (pending s)).
  - exists s. simpl. destruct (Z.ltb_spec m n); [reflexivity | lia].
  - destruct (recv_spec (n - m) s) as (g1 & s1 & Er & Hp & Hl & _ & _ & Hh1 & _);
      [lia | exact Hh |].
    assert (Hlt : m < n) by lia.
    rewrite (recvn_loop_step _ _ _ _ _ _ _ Hlt Er).
    pose proof (len_nonneg g1).
    apply IH; [exact Hh1 | lia |]. rewrite Hp, len_app in Hs. lia.
Qed.

Lemma prefix_is_firstn {A : Type} (l a b : list A) (n : Z) :
  l = a ++ b -> len a = Z.max 0 n ->
  a = firstn (Z.to_nat n) l /\ b = skipn (Z.to_nat n) l.
Proof.
  intros -> Hn.
  assert (Hl : Z.to_nat n = length a) by (unfold len in Hn; lia).
  rewrite Hl, firstn_app, skipn_app, firstn_all, skipn_all, Nat.sub_diag.
  simpl. rewrite app_nil_r. split; reflexivity.
Qed.

(** A size [recv] refuses: the first read raises and nothing has moved. *)
Lemma recvn_overflow (fuel : nat) (n : Z) (s : socket) :
  INT_MAX < n ->
  _recvn (S fuel) n s =
  (s, Raise (OverflowError "signed integer is greater than maximum")).
Proof.
  intros H. unfold _recvn.
  assert (E : recv (n - 0) s =
              (s, Raise (OverflowError "signed integer is greater than maximum"))).
  { unfold recv. unfold INT_MAX, INT_MIN in *.
    destruct (Z.ltb_spec (n - 0) (-2147483648)); [lia |].
    destruct (Z.ltb_spec 2147483647 (n - 0)); [reflexivity | lia]. }
  apply recvn_loop_raise; [unfold INT_MAX in H; lia | exact E].
Qed.

(** ** [_recvn] *)

Lemma bind_step {A B : Type} (c : M A) (k : A -> M B) (s s' : socket) (a : A) :
  c s = (s', Ret a) -> bind c k s = k a s'.
Proof. intros E. unfold bind. rewrite E. reflexivity. Qed.

Lemma recvn_inv (fuel : nat) (n : Z) (s s' : socket) (r : res bytes) :
  _recvn fuel n s = (s', r) ->
  exists got cs,
    pending s = got ++ pending s' /\
    len got <= Z.max 0 n /\
    calls s' = calls s ++ cs /\
    within_budget n cs /\
    outbox s' = outbox s /\
    (faults s = [] -> faults s' = []) /\
    match r with
    | Ret x => x = got /\ len got = Z.max 0 n
    | Raise _ => INT_MAX < n \/ faults s <> []
    | Spin => True
    end.
Proof.
  intros E. apply recvn_loop_inv in E.
  rewrite Z.sub_0_r in E. exact E.
Qed.

Lemma recvn_returns (fuel : nat) (n : Z) (s : socket) :
  faults s = [] -> n <= INT_MAX ->
  n <= len (pending s) -> (Z.to_nat n <= fuel)%nat ->
  exists s' cs,
    _recvn fuel n s = (s', Ret (firstn (Z.to_nat n) (pending s))) /\
    pending s' = skipn (Z.to_nat n) (pending s) /\
    outbox s' = outbox s /\
    calls s' = calls s ++ cs /\
    within_budget n cs /\
    faults s' = [].
Proof.
  intros Hh Hmax Hs Hf.
  destruct (recvn_loop_returns fuel n 0 [] s) as (s' & x & E);
    [exact Hh | lia | lia | rewrite Z.sub_0_r; exact Hf |].
  change (_recvn fuel n s = (s', Ret x)) in E.
  destruct (recvn_inv _ _ _ _ _ E)
    as (got & cs & Hp & _ & Hc & Hb & Ho & Hk & Hx & Hn).
  destruct (prefix_is_firstn _ _ _ n Hp Hn) as [Hg Hrest].
  exists s', cs. rewrite E, Hx, Hg. auto 10.
Qed.

Lemma recvn_never_ends_in_loop (fuel : nat) (n : Z) (s : socket) :
  faults s = [] -> n <= INT_MAX ->
  len (pending s) < n -> exists s', _recvn fuel n s = (s', Spin).
Proof. intros Hh Hmax H. apply recvn_loop_spins; [exact Hh | lia | lia]. Qed.

(** C1 (what the code does instead): when the peer closes with fewer than
    [n] bytes delivered, every further [recv] returns the empty string, [m]
    stops growing and the loop [while m < n] never ends: for every amount
    of fuel [_recvn] is still running.  It returns no short or empty result,
    and no ConnectionClosed error exists; the one thing it can raise is the
    [OverflowError] of its first [recv] when [n] is more than a C [int]
    holds. *)
Theorem recvn_never_ends_on_early_close (fuel : nat) (n : Z) (s : socket) :
  faults s = [] ->
  len (pending s) < n ->
  exists s',
    _recvn fuel n s =
    (s', if n <=? INT_MAX then Spin
         else match fuel with
              | O => Spin
              | S _ =>
                  Raise (OverflowError "signed integer is greater than maximum")
              end).
Proof.
  intros Hh H. destruct (Z.leb_spec n INT_MAX) as [Hle | Hgt].
  - apply recvn_never_ends_in_loop; assumption.
  - destruct fuel as [| fuel].
    + exists s. unfold _recvn. simpl.
      pose proof (len_nonneg (pending s)).
      destruct (Z.ltb_spec 0 n); [reflexivity | lia].
    + exists s. apply recvn_overflow. exact Hgt.
Qed.

Lemma recvn_never_ends_on_early_close_witness :
  exists s', _recvn 1000 2 (accepted [[x61]]) = (s', Spin).
Proof.
  apply (recvn_never_ends_on_early_close 1000 2 (accepted [[x61]])).
  - reflexivity.
  - vm_compute. reflexivity.
Defined.

(** X12: on a transport that holds, for every [n] that [sock.recv] accepts
    as a size ([n <= INT_MAX]) and every socket on which at least [n] bytes
    are still to come, cut into segments in any way (one byte at a time
    included), [_recvn(sock, n)] returns once the fuel covers [n] reads, and
    what it returns is exactly the first [n] bytes of the stream, in
    order. *)
Theorem recvn_exact_under_fragmentation (fuel : nat) (n : Z) (s : socket) :
  faults s = [] -> n <= INT_MAX ->
  n <= len (pending s) -> (Z.to_nat n <= fuel)%nat ->
  exists s', _recvn fuel n s = (s', Ret (firstn (Z.to_nat n) (pending s))).
Proof.
  intros Hh Hmax Hs Hf.
  destruct (recvn_returns fuel n s Hh Hmax Hs Hf) as (s' & cs & E & _).
  exists s'. exact E.
Qed.

Lemma recvn_exact_under_fragmentation_witness :
  exists s',
    _recvn 3 3 (accepted (bytewise [x61; x62; x63; x64])) =
    (s', Ret [x61; x62; x63]).
Proof.
  apply (recvn_exact_under_fragmentation 3 3
           (accepted (bytewise [x61; x62; x63; x64]))).
  - reflexivity.
  - vm_compute. discriminate.
  - vm_compute. discriminate.
  - vm_compute. lia.
Defined.

(** C4 (what the code does instead): [_recvn] asks [recv] for all the
    missing bytes at once, and [recv] takes no size above [INT_MAX]: with
    [n] = 2^31 and a stream that holds 2^31 bytes, the first [recv(n)]
    raises [OverflowError] and [_recvn] returns nothing, however much fuel
    it is given.  (Up to [INT_MAX] it returns the first [n] bytes under any
    fragmentation, as the theorem above shows.) *)
Theorem recvn_raises_on_two_to_the_31 :
  len (pending (accepted [ones 2147483648])) = 2147483648 /\
  forall fuel,
    _recvn (S fuel) 2147483648 (accepted [ones 2147483648]) =
    (accepted [ones 2147483648],
     Raise (OverflowError "signed integer is greater than maximum")).
Proof.
  split.
  - unfold pending, accepted, mkSocket. cbn [inbox remote concat].
    rewrite !app_nil_r. apply len_ones. lia.
  - intros fuel. apply recvn_overflow. reflexivity.
Qed.

(** C9: for every [n], whatever the stream and however the call ends, each
    [recv] that [_recvn(sock, n)] issues asks for at most the bytes still
    missing, what the call takes from the stream is a prefix of at most [n]
    bytes, and when it returns, the bytes after the first [n] are all still
    there for the next read.  (When it raises, a [recv] raised: on a size
    above [INT_MAX] or on a fault of the transport.) *)
Theorem recvn_stays_within_n (fuel : nat) (n : Z) (s : socket) :
  let s' := fst (_recvn fuel n s) in
  exists got cs,
    pending s = got ++ pending s' /\
    len got <= Z.max 0 n /\
    calls s' = calls s ++ cs /\
    within_budget n cs /\
    match snd (_recvn fuel n s) with
    | Ret x =>
        x = firstn (Z.to_nat n) (pending s) /\
        pending s' = skipn (Z.to_nat n) (pending s)
    | Raise _ => INT_MAX < n \/ faults s <> []
    | Spin => True
    end.
Proof.
  destruct (_recvn fuel n s) as [s' r] eqn:E. simpl.
  destruct (recvn_inv _ _ _ _ _ E)
    as (got & cs & Hp & Hl & Hc & Hb & _ & _ & Hr).
  exists got, cs. repeat (split; [assumption |]).
  destruct r; auto. destruct Hr as [Hx Hn].
  destruct (prefix_is_firstn _ _ _ n Hp Hn) as [Hg Hrest].
  split; congruence.
Qed.

Example recvn_leaves_the_rest :
  let r := _recvn 9 2 (accepted [[x61]; [x62; x63; x64]; [x65]]) in
  snd r = Ret [x61; x62] /\
  inbox (fst r) = [[x63; x64]; [x65]] /\
  calls (fst r) = [Recv 2 [x61]; Recv 1 [x62]].
Proof. vm_compute. auto. Qed.

(** ** Logs *)

Lemma reads_of_budget (cs : list call) :
  forall n, within_budget n cs -> Forall is_read cs.
Proof.
  induction cs as [| c cs IH]; intros n H; [constructor |].
  destruct c; simpl in H; try contradiction.
  destruct H as (_ & _ & H). constructor; [exact I | exact (IH _ H)].
Qed.

Lemma written_app (a b : list call) : written (a ++ b) = written a ++ written b.
Proof.
  induction a as [| c a IH]; simpl; [reflexivity |].
  destruct c; rewrite IH; try reflexivity. apply app_assoc.
Qed.

Lemma written_reads (cs : list call) : Forall is_read cs -> written cs = [].
Proof.
  induction 1 as [| c cs Hc _ IH]; [reflexivity |].
  destruct c; simpl in *; try contradiction. exact IH.
Qed.

Lemma reads_no_close (cs : list call) : Forall is_read cs -> ~ In Close cs.
Proof.
  intros H Hin. rewrite Forall_forall in H. exact (H _ Hin).
Qed.

(** ** Frames *)

Lemma sendall_spec (d : bytes) (s : socket) :
  faults s = [] ->
  sendall d s =
  (mkSocket (inbox s) (remote s) (outbox s ++ d) (calls s ++ [SendAll d]),
   Ret tt).
Proof. intros H. unfold sendall. rewrite H. reflexivity. Qed.

(** A write either passes on all of its data and returns, or passes on a
    part of it at most and raises; it reads nothing and closes nothing. *)
Lemma sendall_inv (d : bytes) (s s' : socket) (r : res unit) :
  sendall d s = (s', r) ->
  inbox s' = inbox s /\ remote s' = remote s /\
  (faults s = [] -> faults s' = []) /\
  match r with
  | Ret _ => outbox s' = outbox s ++ d /\ calls s' = calls s ++ [SendAll d]
  | Raise _ =>
      (exists k, outbox s' = outbox s ++ firstn k d) /\
      calls s' = calls s /\ faults s <> []
  | Spin => False
  end.
Proof.
  unfold sendall. destruct (faults s) as [| [k |] fs] eqn:Hf;
    intros E; inversion E; subst; simpl; repeat split; auto;
    try (intros F; discriminate F); try discriminate.
  exists k. reflexivity.
Qed.

Lemma send_frame_spec (d : bytes) (s : socket) :
  faults s = [] ->
  len d < MAX_DATA ->
  exists b4,
    Struct.pack DATA_SIZE_TYPE (len d) = Ret b4 /\
    send_frame d s =
    (mkSocket (inbox s) (remote s) ((outbox s ++ b4) ++ d)
              ((calls s ++ [SendAll b4]) ++ [SendAll d]), Ret tt).
Proof.
  intros Hh H. pose proof (len_nonneg d).
  destruct (pack_in_range (len d)) as [b4 E]; [lia |].
  exists b4. split; [exact E |].
  unfold send_frame, bind, lift. rewrite E.
  rewrite (sendall_spec b4 s Hh). rewrite sendall_spec by reflexivity.
  reflexivity.
Qed.

Lemma send_frame_at_limit (d : bytes) (s : socket) :
  MAX_DATA <= len d ->
  send_frame d s =
  (s, Raise (StructError "'I' format requires 0 <= number <= 4294967295")).
Proof.
  intros H. unfold send_frame, bind, lift.
  rewrite (pack_out_of_range _ H). reflexivity.
Qed.

Lemma read_frame_spec (fuel : nat) (s : socket) (b4 p rest : bytes) :
  faults s = [] -> len p <= INT_MAX ->
  Struct.pack DATA_SIZE_TYPE (len p) = Ret b4 ->
  pending s = b4 ++ p ++ rest ->
  (4 <= fuel)%nat -> (Z.to_nat (len p) <= fuel)%nat ->
  exists s' cs,
    read_frame fuel s = (s', Ret p) /\
    pending s' = rest /\
    outbox s' = outbox s /\
    calls s' = calls s ++ cs /\
    Forall is_read cs /\
    faults s' = [].
Proof.
  intros Hh Hmax Hpk Hp Hf4 Hfp.
  destruct (unpack_pack _ _ Hpk) as [Hu Hl4].
  pose proof (len_nonneg p). pose proof (len_nonneg rest).
  destruct (recvn_returns fuel DATA_SIZE_LEN s)
    as (s1 & cs1 & E1 & Hp1 & Ho1 & Hc1 & Hb1 & Hh1).
  { exact Hh. }
  { change DATA_SIZE_LEN with 4. unfold INT_MAX. lia. }
  { rewrite Hp, !len_app. change DATA_SIZE_LEN with 4. lia. }
  { change DATA_SIZE_LEN with 4. lia. }
  destruct (prefix_is_firstn _ _ _ DATA_SIZE_LEN Hp) as [F1 K1].
  { rewrite Hl4. reflexivity. }
  rewrite <- F1 in E1. rewrite <- K1 in Hp1.
  destruct (recvn_returns fuel (len p) s1)
    as (s2 & cs2 & E2 & Hp2 & Ho2 & Hc2 & Hb2 & Hh2).
  { exact Hh1. }
  { exact Hmax. }
  { rewrite Hp1, len_app. lia. }
  { exact Hfp. }
  destruct (prefix_is_firstn _ _ _ (len p) Hp1) as [F2 K2]; [lia |].
  rewrite <- F2 in E2. rewrite <- K2 in Hp2.
  exists s2, (cs1 ++ cs2).
  split; [| split; [| split; [| split; [| split]]]].
  - unfold read_frame, bind, lift. rewrite E1, Hu, E2. reflexivity.
  - exact Hp2.
  - congruence.
  - rewrite Hc2, Hc1, app_assoc. reflexivity.
  - apply Forall_app. split; eapply reads_of_budget; eassumption.
  - exact Hh2.
Qed.

(** Reading a frame writes nothing and closes nothing, however it ends. *)
Lemma read_frame_reads_only (fuel : nat) (s s' : socket) (r : res bytes) :
  read_frame fuel s = (s', r) ->
  outbox s' = outbox s /\
  exists cs, calls s' = calls s ++ cs /\ Forall is_read cs.
Proof.
  unfold read_frame, bind, lift.
  destruct (_recvn fuel DATA_SIZE_LEN s) as [s1 r1] eqn:E1.
  destruct (recvn_inv _ _ _ _ _ E1) as (_ & cs1 & _ & _ & Hc1 & Hb1 & Ho1 & _).
  apply reads_of_budget in Hb1.
  destruct r1 as [b4 | e |];
    try (intros E; inversion E; subst; split; [exact Ho1 | eauto]).
  destruct (Struct.unpack DATA_SIZE_TYPE b4) as [n | e |];
    try (intros E; inversion E; subst; split; [exact Ho1 | eauto]).
  intros E2.
  destruct (recvn_inv _ _ _ _ _ E2) as (_ & cs2 & _ & _ & Hc2 & Hb2 & Ho2 & _).
  apply reads_of_budget in Hb2. split; [congruence |].
  exists (cs1 ++ cs2). split.
  - rewrite Hc2, Hc1, app_assoc. reflexivity.
  - apply Forall_app. auto.
Qed.

Lemma read_frame_keeps_faults (fuel : nat) (s s' : socket) (r : res bytes) :
  read_frame fuel s = (s', r) -> faults s = [] -> faults s' = [].
Proof.
  unfold read_frame, bind, lift.
  destruct (_recvn fuel DATA_SIZE_LEN s) as [s1 r1] eqn:E1.
  destruct (recvn_inv _ _ _ _ _ E1) as (_ & _ & _ & _ & _ & _ & _ & Hk1 & _).
  destruct r1 as [b4 | e |];
    try (intros E; inversion E; subst; exact Hk1).
  destruct (Struct.unpack DATA_SIZE_TYPE b4) as [n | e |];
    try (intros E; inversion E; subst; exact Hk1).
  intros E2 Hh.
  destruct (recvn_inv _ _ _ _ _ E2) as (_ & _ & _ & _ & _ & _ & _ & Hk2 & _).
  auto.
Qed.

(** [request] and [_server] in terms of the two halves. *)
Lemma server_unfold (fuel : nat) (handler : bytes -> res pyval) (s : socket) :
  _server fuel handler s =
  (req <- read_frame fuel ;; resp <- lift (handler req) ;; reply resp) s.
Proof.
  unfold _server, read_frame, reply, bind, lift.
  destruct (_recvn fuel DATA_SIZE_LEN s) as [s1 [b4 | e |]]; try reflexivity.
  destruct (Struct.unpack DATA_SIZE_TYPE b4) as [n | e |]; reflexivity.
Qed.

Lemma request_unfold (net : network) (fuel : nat) (host : string) (port : Z)
    (d : bytes) :
  len d <= MAX_DATA ->
  request net fuel host port (PyStr d) =
  let (sock, r) :=
    (connect net host port ;;;
     send_frame d ;;;
     data <- read_frame fuel ;;
     close ;;;
     ret data) fresh in
  (Some sock, r).
Proof.
  intros H. unfold request. rewrite Z.gtb_ltb.
  destruct (Z.ltb_spec MAX_DATA (len d)); [lia |].
  unfold send_frame, read_frame, bind, lift.
  destruct (connect net host port fresh) as [s0 [[] | e |]]; try reflexivity;
    destruct (Struct.pack DATA_SIZE_TYPE (len d)) as [b4 | e |]; try reflexivity;
    destruct (sendall b4 s0) as [s1 [[] | e |]]; try reflexivity;
    destruct (sendall d s1) as [s2 [[] | e |]]; try reflexivity;
    destruct (_recvn fuel DATA_SIZE_LEN s2) as [s3 [b4' | e |]]; try reflexivity;
    destruct (Struct.unpack DATA_SIZE_TYPE b4') as [n | e |]; try reflexivity;
    destruct (_recvn fuel n s3) as [s4 [x | e |]]; reflexivity.
Qed.

Lemma server_after_read (fuel : nat) (handler : bytes -> res pyval)
    (s s1 : socket) (req : bytes) :
  read_frame fuel s = (s1, Ret req) ->
  _server fuel handler s = (resp <- lift (handler req) ;; reply resp) s1.
Proof.
  intros E. rewrite server_unfold. unfold bind at 1. rewrite E. reflexivity.
Qed.

Lemma reply_spec (r : bytes) (s : socket) :
  len r <= MAX_DATA -> reply (PyStr r) s = send_frame r s.
Proof.
  intros H. unfold reply. rewrite Z.gtb_ltb.
  destruct (Z.ltb_spec MAX_DATA (len r)); [lia | reflexivity].
Qed.

Lemma reply_too_long (r : bytes) (s : socket) :
  MAX_DATA < len r ->
  reply (PyStr r) s =
  (s, Raise (ValueError "handler return value must have len <= %d")).
Proof.
  intros H. unfold reply. rewrite Z.gtb_ltb.
  destruct (Z.ltb_spec MAX_DATA (len r)); [reflexivity | lia].
Qed.

Lemma request_too_long (net : network) (fuel : nat) (host : string) (port : Z)
    (d : bytes) :
  MAX_DATA < len d ->
  request net fuel host port (PyStr d) =
  (None, Raise (ValueError "request data must have len <= %d")).
Proof.
  intros H. unfold request. rewrite Z.gtb_ltb.
  destruct (Z.ltb_spec MAX_DATA (len d)); [reflexivity | lia].
Qed.

Lemma connect_spec (net : network) (host : string) (port : Z) (p : peer) :
  net host port = Some p ->
  connect net host port fresh =
  (Socket [] (Some (answer p)) [] [Connect host port] (weather p), Ret tt).
Proof. intros H. unfold connect. rewrite H. reflexivity. Qed.

Lemma request_at_limit (net : network) (fuel : nat) (host : string) (port : Z)
    (d : bytes) (p : peer) :
  len d = MAX_DATA -> net host port = Some p ->
  request net fuel host port (PyStr d) =
  (Some (Socket [] (Some (answer p)) [] [Connect host port] (weather p)),
   Raise (StructError "'I' format requires 0 <= number <= 4294967295")).
Proof.
  intros Hl Hn. rewrite request_unfold by lia.
  rewrite (bind_step _ _ _ _ _ (connect_spec _ _ _ _ Hn)).
  unfold bind at 1. rewrite send_frame_at_limit by lia. reflexivity.
Qed.

Lemma MAX_DATA_pos : 0 < MAX_DATA.
Proof. reflexivity. Qed.

Lemma INT_MAX_below_MAX_DATA : INT_MAX < MAX_DATA.
Proof. reflexivity. Qed.

(** Below the limits, a frame written by one end is read back unchanged by
    the other, however the bytes are cut on the way. *)
Lemma frame_roundtrip (fuel : nat) (p : bytes) (a b : socket) :
  faults a = [] -> faults b = [] ->
  len p <= INT_MAX ->
  outbox a = [] ->
  pending b = outbox (fst (send_frame p a)) ->
  (4 <= fuel)%nat -> (Z.to_nat (len p) <= fuel)%nat ->
  snd (send_frame p a) = Ret tt /\ snd (read_frame fuel b) = Ret p.
Proof.
  intros Hha Hhb Hl Ha Hb Hf4 Hfp.
  pose proof INT_MAX_below_MAX_DATA.
  destruct (send_frame_spec p a Hha) as (b4 & Hpk & E); [lia |].
  rewrite E in Hb |- *. simpl in Hb. rewrite Ha in Hb. simpl in Hb.
  split; [reflexivity |].
  destruct (read_frame_spec fuel b b4 p [] Hhb Hl Hpk) as (b' & cs & E' & _);
    [rewrite app_nil_r; exact Hb | exact Hf4 | exact Hfp |].
  rewrite E'. reflexivity.
Qed.

(** ** The two size checks *)

(** C2 (what the code does instead): a payload of [MAX_DATA + 1] bytes is
    refused with [ValueError] by [request], before any socket exists, and by
    [_server]; a payload of exactly [MAX_DATA] = 2^32 bytes passes both
    checks, and then [struct.pack] raises [struct.error] on a length that
    does not fit in 4 bytes: no frame is written, by the client (which has
    connected already) or by the server. *)
Theorem limit_payload_passes_check_then_pack_fails
    (net : network) (fuel : nat) (host : string) (port : Z)
    (p : peer) (s s1 : socket) (req over limit : bytes) :
  net host port = Some p ->
  read_frame fuel s = (s1, Ret req) ->
  len over = MAX_DATA + 1 ->
  len limit = MAX_DATA ->
  request net fuel host port (PyStr over) =
    (None, Raise (ValueError "request data must have len <= %d")) /\
  _server fuel (fun _ => Ret (PyStr over)) s =
    (s1, Raise (ValueError "handler return value must have len <= %d")) /\
  request net fuel host port (PyStr limit) =
    (Some (Socket [] (Some (answer p)) [] [Connect host port] (weather p)),
     Raise (StructError "'I' format requires 0 <= number <= 4294967295")) /\
  _server fuel (fun _ => Ret (PyStr limit)) s =
    (s1, Raise (StructError "'I' format requires 0 <= number <= 4294967295")) /\
  outbox s1 = outbox s.
Proof.
  intros Hnet Hread Hover Hlim.
  split; [apply request_too_long; lia |].
  split.
  { rewrite (server_after_read _ _ _ _ _ Hread). unfold bind, lift.
    apply reply_too_long. lia. }
  split; [apply request_at_limit; assumption |].
  split.
  { rewrite (server_after_read _ _ _ _ _ Hread). unfold bind, lift.
    rewrite reply_spec by lia. apply send_frame_at_limit. lia. }
  apply (read_frame_reads_only _ _ _ _ Hread).
Qed.

Lemma limit_payload_passes_check_then_pack_fails_witness :
  request (listen 4 bytewise bytewise "localhost" 55555 echo_handler)
          4 "localhost" 55555 (PyStr (ones (MAX_DATA + 1))) =
    (None, Raise (ValueError "request data must have len <= %d")) /\
  _server 4 (fun _ => Ret (PyStr (ones (MAX_DATA + 1))))
          (accepted [[x00; x00; x00; x00]]) =
    (mkSocket [[]] None [] [Recv 4 [x00; x00; x00; x00]],
     Raise (ValueError "handler return value must have len <= %d")) /\
  request (listen 4 bytewise bytewise "localhost" 55555 echo_handler)
          4 "localhost" 55555 (PyStr (ones MAX_DATA)) =
    (Some (mkSocket [] (Some (fun sent =>
             bytewise (outbox (served 4 echo_handler bytewise sent))))
             [] [Connect "localhost" 55555]),
     Raise (StructError "'I' format requires 0 <= number <= 4294967295")) /\
  _server 4 (fun _ => Ret (PyStr (ones MAX_DATA)))
          (accepted [[x00; x00; x00; x00]]) =
    (mkSocket [[]] None [] [Recv 4 [x00; x00; x00; x00]],
     Raise (StructError "'I' format requires 0 <= number <= 4294967295")) /\
  outbox (mkSocket [[]] None [] [Recv 4 [x00; x00; x00; x00]]) =
  outbox (accepted [[x00; x00; x00; x00]]).
Proof.
  apply (limit_payload_passes_check_then_pack_fails
           (listen 4 bytewise bytewise "localhost" 55555 echo_handler)
           4 "localhost" 55555
           (mkPeer
              (fun sent =>
                 bytewise (outbox (served 4 echo_handler bytewise sent)))
              [])
           (accepted [[x00; x00; x00; x00]])
           (mkSocket [[]] None [] [Recv 4 [x00; x00; x00; x00]])
           [] (ones (MAX_DATA + 1)) (ones MAX_DATA)).
  - reflexivity.
  - vm_compute. reflexivity.
  - apply len_ones. vm_compute. discriminate.
  - apply len_ones. vm_compute. discriminate.
Defined.

(** C3 (what the code does instead): a payload of exactly [MAX_DATA] bytes
    is inside the range the round trip is claimed for and passes the size
    check, yet it has no encoding: [struct.pack] raises on its length and
    nothing is written, so there is no frame to decode.  (For payloads of
    at most [INT_MAX] bytes the round trip holds, see [frame_roundtrip].) *)
Theorem limit_payload_has_no_frame (p : bytes) (s : socket) :
  len p = MAX_DATA ->
  (len p >? MAX_DATA) = false /\
  send_frame p s =
  (s, Raise (StructError "'I' format requires 0 <= number <= 4294967295")).
Proof.
  intros H. split.
  - rewrite H. apply Z.gtb_ltb.
  - apply send_frame_at_limit. lia.
Qed.

Lemma limit_payload_has_no_frame_witness :
  (len (ones MAX_DATA) >? MAX_DATA) = false /\
  send_frame (ones MAX_DATA) fresh =
  (fresh, Raise (StructError "'I' format requires 0 <= number <= 4294967295")).
Proof.
  apply (limit_payload_has_no_frame (ones MAX_DATA) fresh).
  apply len_ones. vm_compute. discriminate.
Defined.

(** ** The length prefix *)

(** C6: whenever the encoding of a payload goes through, what was written
    is a frame whose first 4 bytes, read as an unsigned big-endian integer,
    are the length of the payload, and whose remaining bytes are the
    payload. *)
Theorem length_prefix_is_len (d : bytes) (s s' : socket) :
  send_frame d s = (s', Ret tt) ->
  exists frame,
    outbox s' = outbox s ++ frame /\
    Struct.unpack DATA_SIZE_TYPE (firstn 4 frame) = Ret (len d) /\
    skipn 4 frame = d.
Proof.
  unfold send_frame, bind, lift. intros H.
  destruct (Struct.pack DATA_SIZE_TYPE (len d)) as [b4 | e |] eqn:E;
    try discriminate H.
  destruct (sendall b4 s) as [s1 r1] eqn:E1.
  destruct (sendall_inv _ _ _ _ E1) as (_ & _ & _ & H1).
  destruct r1 as [[] | e |]; try discriminate H.
  destruct (sendall_inv _ _ _ _ H) as (_ & _ & _ & H2).
  destruct H1 as [Ho1 _]. destruct H2 as [Ho2 _].
  destruct (unpack_pack _ _ E) as [Hu Hl].
  assert (H4 : length b4 = 4%nat) by (unfold len in Hl; lia).
  exists (b4 ++ d). split; [| split].
  - rewrite Ho2, Ho1, <- app_assoc. reflexivity.
  - rewrite <- H4, firstn_app, Nat.sub_diag, firstn_all. simpl.
    rewrite app_nil_r. exact Hu.
  - rewrite <- H4, skipn_app, Nat.sub_diag, skipn_all. reflexivity.
Qed.

Lemma length_prefix_is_len_witness :
  exists frame,
    outbox (mkSocket [] None [x00; x00; x00; x02; x68; x69]
                     [SendAll [x00; x00; x00; x02]; SendAll [x68; x69]]) =
    outbox fresh ++ frame /\
    Struct.unpack DATA_SIZE_TYPE (firstn 4 frame) = Ret (len [x68; x69]) /\
    skipn 4 frame = [x68; x69].
Proof.
  apply (length_prefix_is_len [x68; x69] fresh).
  vm_compute. reflexivity.
Defined.

(** ** [request] checks before it connects *)

(** C7: when [data] is not a [str], or is longer than [MAX_DATA],
    [request] raises [ValueError] and no socket has been created: nothing
    was connected and nothing was written. *)
Theorem request_validates_before_network
    (net : network) (fuel : nat) (host : string) (port : Z) (data : pyval) :
  match data with
  | PyStr d => MAX_DATA < len d
  | _ => True
  end ->
  exists msg,
    request net fuel host port data = (None, Raise (ValueError msg)).
Proof.
  destruct data as [d | z |]; intros H.
  - eexists. apply request_too_long. exact H.
  - eexists. reflexivity.
  - eexists. reflexivity.
Qed.

Lemma request_validates_before_network_witness :
  exists msg,
    request (listen 4 bytewise bytewise "localhost" 55555 echo_handler)
            4 "localhost" 55555 (PyStr (ones (MAX_DATA + 1))) =
    (None, Raise (ValueError msg)).
Proof.
  apply (request_validates_before_network
           (listen 4 bytewise bytewise "localhost" 55555 echo_handler)
           4 "localhost" 55555 (PyStr (ones (MAX_DATA + 1)))).
  rewrite len_ones; [lia | vm_compute; discriminate].
Defined.

Example request_refuses_non_str :
  request (fun _ _ => None) 0 "localhost" 55555 PyNone =
  (None, Raise (ValueError "data must be of type <str>")).
Proof. reflexivity. Qed.

(** ** The server task *)

Lemma server_replies (fuel : nat) (handler : bytes -> res pyval)
    (s s1 : socket) (req r : bytes) :
  faults s = [] ->
  read_frame fuel s = (s1, Ret req) ->
  handler req = Ret (PyStr r) ->
  len r < MAX_DATA ->
  exists b4,
    Struct.pack DATA_SIZE_TYPE (len r) = Ret b4 /\
    _server fuel handler s =
    (mkSocket (inbox s1) (remote s1) ((outbox s1 ++ b4) ++ r)
              ((calls s1 ++ [SendAll b4]) ++ [SendAll r]), Ret tt).
Proof.
  intros Hs Hread Hh Hl.
  pose proof (read_frame_keeps_faults _ _ _ _ Hread Hs) as Hs1.
  destruct (send_frame_spec r s1 Hs1 Hl) as (b4 & Hpk & E).
  exists b4. split; [exact Hpk |].
  rewrite (server_after_read _ _ _ _ _ Hread). unfold bind, lift.
  rewrite Hh, reply_spec by lia. exact E.
Qed.

(** C5 (what the code does instead): on a connection whose transport
    holds, whose request frame arrives whole and whose handler returns a
    payload that can be encoded, the task writes the 4-byte length and then
    the payload, and returns.  Its calls on the socket are reads followed by
    these two writes: it never calls [close], which [request] does on its
    own socket (line 112). *)
Theorem server_writes_frame_and_does_not_close
    (fuel : nat) (handler : bytes -> res pyval)
    (s s1 : socket) (req r : bytes) :
  faults s = [] ->
  read_frame fuel s = (s1, Ret req) ->
  handler req = Ret (PyStr r) ->
  len r < MAX_DATA ->
  exists b4 cs,
    Struct.pack DATA_SIZE_TYPE (len r) = Ret b4 /\
    _server fuel handler s =
    (mkSocket (inbox s1) (remote s1) (outbox s ++ b4 ++ r)
              (calls s ++ cs ++ [SendAll b4; SendAll r]), Ret tt) /\
    Forall is_read cs /\
    ~ In Close (cs ++ [SendAll b4; SendAll r]).
Proof.
  intros Hs Hread Hh Hl.
  destruct (server_replies _ _ _ _ _ _ Hs Hread Hh Hl) as (b4 & Hpk & E).
  destruct (read_frame_reads_only _ _ _ _ Hread) as (Ho & cs & Hc & Hr).
  exists b4, cs. split; [exact Hpk |]. split; [| split; [exact Hr |]].
  - rewrite E, Ho, Hc, <- !app_assoc. reflexivity.
  - intros Hin. apply in_app_or in Hin. destruct Hin as [Hin | Hin].
    + exact (reads_no_close _ Hr Hin).
    + simpl in Hin. destruct Hin as [Hin | [Hin | []]]; discriminate.
Qed.

Lemma server_writes_frame_and_does_not_close_witness :
  exists b4 cs,
    Struct.pack DATA_SIZE_TYPE (len [x68; x69]) = Ret b4 /\
    _server 4 echo_handler (accepted [[x00; x00; x00; x02]; [x68; x69]]) =
    (mkSocket
       (inbox (mkSocket [[]] None []
                 [Recv 4 [x00; x00; x00; x02]; Recv 2 [x68; x69]]))
       (remote (mkSocket [[]] None []
                 [Recv 4 [x00; x00; x00; x02]; Recv 2 [x68; x69]]))
       (outbox (accepted [[x00; x00; x00; x02]; [x68; x69]]) ++
        b4 ++ [x68; x69])
       (calls (accepted [[x00; x00; x00; x02]; [x68; x69]]) ++
        cs ++ [SendAll b4; SendAll [x68; x69]]), Ret tt) /\
    Forall is_read cs /\
    ~ In Close (cs ++ [SendAll b4; SendAll [x68; x69]]).
Proof.
  apply (server_writes_frame_and_does_not_close 4 echo_handler
           (accepted [[x00; x00; x00; x02]; [x68; x69]])
           (mkSocket [[]] None []
              [Recv 4 [x00; x00; x00; x02]; Recv 2 [x68; x69]])
           [x68; x69] [x68; x69]).
  - reflexivity.
  - vm_compute. reflexivity.
  - reflexivity.
  - vm_compute. reflexivity.
Defined.

Example server_echo_hi_log :
  _server 4 echo_handler (accepted [[x00; x00; x00; x02]; [x68; x69]]) =
  (mkSocket [[]] None [x00; x00; x00; x02; x68; x69]
     [Recv 4 [x00; x00; x00; x02]; Recv 2 [x68; x69];
      SendAll [x00; x00; x00; x02]; SendAll [x68; x69]], Ret tt).
Proof. vm_compute. reflexivity. Qed.

(** C10: when the request frame has been read and the handler raises on
    it, the task ends with that exception having written nothing: the
    outbox and the bytes written according to the log are what they were
    when the task started. *)
Theorem handler_error_sends_nothing
    (fuel : nat) (handler : bytes -> res pyval)
    (s s1 : socket) (req : bytes) (e : exn) :
  read_frame fuel s = (s1, Ret req) ->
  handler req = Raise e ->
  _server fuel handler s = (s1, Raise e) /\
  outbox s1 = outbox s /\
  written (calls s1) = written (calls s).
Proof.
  intros Hread Hh.
  destruct (read_frame_reads_only _ _ _ _ Hread) as (Ho & cs & Hc & Hr).
  split; [| split].
  - rewrite (server_after_read _ _ _ _ _ Hread). unfold bind, lift.
    rewrite Hh. reflexivity.
  - exact Ho.
  - rewrite Hc, written_app, (written_reads _ Hr), app_nil_r. reflexivity.
Qed.

Lemma handler_error_sends_nothing_witness :
  _server 4 (fun _ => Raise (ValueError "handler failed"))
          (accepted [[x00; x00; x00; x01]; [x61]]) =
  (mkSocket [[]] None [] [Recv 4 [x00; x00; x00; x01]; Recv 1 [x61]],
   Raise (ValueError "handler failed")) /\
  outbox (mkSocket [[]] None [] [Recv 4 [x00; x00; x00; x01]; Recv 1 [x61]]) =
  outbox (accepted [[x00; x00; x00; x01]; [x61]]) /\
  written (calls (mkSocket [[]] None []
                    [Recv 4 [x00; x00; x00; x01]; Recv 1 [x61]])) =
  written (calls (accepted [[x00; x00; x00; x01]; [x61]])).
Proof.
  apply (handler_error_sends_nothing 4
           (fun _ => Raise (ValueError "handler failed"))
           (accepted [[x00; x00; x00; x01]; [x61]])
           (mkSocket [[]] None [] [Recv 4 [x00; x00; x00; x01]; Recv 1 [x61]])
           [x61] (ValueError "handler failed")).
  - vm_compute. reflexivity.
  - reflexivity.
Defined.

(** ** One exchange between [request] and a listening server *)

Section Exchange.

Variable fuel : nat.
Variables cut_in cut_out : bytes -> list bytes.
Variable host : string.
Variable port : Z.
Variable handler : bytes -> res pyval.

Hypothesis cut_in_faithful : faithful cut_in.
Hypothesis cut_out_faithful : faithful cut_out.

Local Abbreviation net := (listen fuel cut_in cut_out host port handler).

Lemma listen_accepts :
  net host port =
  Some (mkPeer
          (fun sent => cut_out (outbox (served fuel handler cut_in sent)))
          []).
Proof.
  unfold listen. rewrite String.eqb_refl, Z.eqb_refl. reflexivity.
Qed.

(** What the task of the connection has written once the request frame of
    [d] has reached it. *)
Lemma served_frame (b4 d r : bytes) :
  len d <= INT_MAX ->
  Struct.pack DATA_SIZE_TYPE (len d) = Ret b4 ->
  handler d = Ret (PyStr r) ->
  len r < MAX_DATA ->
  (4 <= fuel)%nat -> (Z.to_nat (len d) <= fuel)%nat ->
  exists b4',
    Struct.pack DATA_SIZE_TYPE (len r) = Ret b4' /\
    outbox (served fuel handler cut_in (b4 ++ d)) = b4' ++ r.
Proof.
  intros Hd Hpk Hh Hr Hf4 Hfd.
  destruct (read_frame_spec fuel (accepted (cut_in (b4 ++ d))) b4 d []
              eq_refl Hd Hpk)
    as (sA & csA & EA & _ & HoA & _); try assumption.
  { unfold pending. simpl. rewrite cut_in_faithful, !app_nil_r. reflexivity. }
  destruct (server_replies fuel handler (accepted (cut_in (b4 ++ d))) sA d r
              eq_refl EA Hh Hr) as (b4' & Hpk' & E).
  exists b4'. split; [exact Hpk' |].
  unfold served. rewrite E. simpl. rewrite HoA. reflexivity.
Qed.

Lemma request_served (d r : bytes) :
  len d <= INT_MAX ->
  handler d = Ret (PyStr r) ->
  len r <= INT_MAX ->
  (4 <= fuel)%nat ->
  (Z.to_nat (len d) <= fuel)%nat -> (Z.to_nat (len r) <= fuel)%nat ->
  exists b4 b4' sock cs,
    Struct.pack DATA_SIZE_TYPE (len d) = Ret b4 /\
    Struct.pack DATA_SIZE_TYPE (len r) = Ret b4' /\
    request net fuel host port (PyStr d) = (Some sock, Ret r) /\
    outbox sock = b4 ++ d /\
    outbox (served fuel handler cut_in (outbox sock)) = b4' ++ r /\
    calls sock =
      [Connect host port; SendAll b4; SendAll d] ++ cs ++ [Close] /\
    Forall is_read cs.
Proof.
  intros Hd Hh Hr Hf4 Hfd Hfr.
  pose proof INT_MAX_below_MAX_DATA as Hlim.
  destruct (pack_in_range (len d)) as [b4 Hpk];
    [pose proof (len_nonneg d); lia |].
  destruct (served_frame b4 d r Hd Hpk Hh ltac:(lia) Hf4 Hfd)
    as (b4' & Hpk' & Hsrv).
  set (f := fun sent => cut_out (outbox (served fuel handler cut_in sent))).
  set (s1 := mkSocket [] (Some f) (b4 ++ d)
               [Connect host port; SendAll b4; SendAll d]).
  destruct (read_frame_spec fuel s1 b4' r [] eq_refl Hr Hpk')
    as (s2 & cs & E2 & _ & Ho2 & Hc2 & Hreads & _); try assumption.
  { unfold pending, s1, f. simpl.
    rewrite cut_out_faithful, Hsrv, app_nil_r. reflexivity. }
  exists b4, b4', (log Close s2), cs.
  split; [exact Hpk |]. split; [exact Hpk' |].
  assert (Hout : outbox (log Close s2) = b4 ++ d) by (simpl; rewrite Ho2; reflexivity).
  split; [| split; [exact Hout | split; [| split; [| exact Hreads]]]].
  - rewrite request_unfold by lia.
    assert (Hs : send_frame d (Socket [] (Some f) [] [Connect host port] []) =
                 (s1, Ret tt)).
    { unfold send_frame, bind, lift. rewrite Hpk. reflexivity. }
    rewrite (bind_step _ _ _ _ _ (connect_spec _ _ _ _ listen_accepts)).
    change (answer (mkPeer f [])) with f.
    change (weather (mkPeer f [])) with (@nil (option nat)).
    rewrite (bind_step _ _ _ _ _ Hs), (bind_step _ _ _ _ _ E2).
    reflexivity.
  - rewrite Hout. exact Hsrv.
  - simpl. rewrite Hc2, <- app_assoc. reflexivity.
Qed.

End Exchange.

Lemma bytewise_faithful : faithful bytewise.
Proof.
  intros l. unfold bytewise.
  induction l as [| b l IH]; simpl; [reflexivity | rewrite IH; reflexivity].
Qed.

(** C8: against a listening echo server, with the bytes cut in any way in
    both directions, [request] on the empty payload writes exactly the four
    bytes 00 00 00 00, the server task answers with exactly the four bytes
    00 00 00 00, and [request] returns the empty string (having read the
    answer and closed its socket). *)
Theorem empty_payload_echo
    (fuel : nat) (cut_in cut_out : bytes -> list bytes)
    (host : string) (port : Z) :
  faithful cut_in -> faithful cut_out -> (4 <= fuel)%nat ->
  exists sock cs,
    request (listen fuel cut_in cut_out host port echo_handler)
            fuel host port (PyStr []) = (Some sock, Ret []) /\
    outbox sock = [x00; x00; x00; x00] /\
    outbox (served fuel echo_handler cut_in (outbox sock)) =
      [x00; x00; x00; x00] /\
    calls sock =
      [Connect host port; SendAll [x00; x00; x00; x00]; SendAll []] ++
      cs ++ [Close] /\
    Forall is_read cs.
Proof.
  intros Hin Hout Hf.
  destruct (request_served fuel cut_in cut_out host port echo_handler
              Hin Hout [] [])
    as (b4 & b4' & sock & cs & Hpk & Hpk' & E & Ho & Hs & Hc & Hr);
    [vm_compute; discriminate | reflexivity | vm_compute; discriminate
    | exact Hf | simpl; lia | simpl; lia |].
  assert (H0 : Struct.pack DATA_SIZE_TYPE (len (@nil byte)) =
               Ret [x00; x00; x00; x00]) by reflexivity.
  rewrite H0 in Hpk, Hpk'. inversion Hpk; inversion Hpk'; subst.
  exists sock, cs. auto.
Qed.

Lemma empty_payload_echo_witness :
  exists sock cs,
    request (listen 4 bytewise bytewise "localhost" 55555 echo_handler)
            4 "localhost" 55555 (PyStr []) = (Some sock, Ret []) /\
    outbox sock = [x00; x00; x00; x00] /\
    outbox (served 4 echo_handler bytewise (outbox sock)) =
      [x00; x00; x00; x00] /\
    calls sock =
      [Connect "localhost" 55555; SendAll [x00; x00; x00; x00]; SendAll []] ++
      cs ++ [Close] /\
    Forall is_read cs.
Proof.
  apply (empty_payload_echo 4 bytewise bytewise "localhost" 55555
           bytewise_faithful bytewise_faithful).
  lia.
Defined.

Example empty_payload_echo_log :
  let r := request (listen 4 bytewise bytewise "localhost" 55555 echo_handler)
                   4 "localhost" 55555 (PyStr []) in
  snd r = Ret [] /\
  option_map calls (fst r) =
  Some [Connect "localhost" 55555; SendAll [x00; x00; x00; x00]; SendAll [];
        Recv 4 [x00]; Recv 3 [x00]; Recv 2 [x00]; Recv 1 [x00]; Close].
Proof. vm_compute. auto. Qed.

(** * Further properties *)

(** ** Frames within the limits *)

(** X1: on a transport that holds, for every payload of at most [INT_MAX]
    bytes, the frame one end writes (packed length, then payload) is read
    back by the other end as that payload, however the bytes are cut into
    segments, and whatever follows the frame in the stream is left there,
    unread. *)
Theorem frame_read_back_with_rest
    (fuel : nat) (p rest : bytes) (a b : socket) :
  faults a = [] -> faults b = [] ->
  len p <= INT_MAX ->
  outbox a = [] ->
  pending b = outbox (fst (send_frame p a)) ++ rest ->
  (4 <= fuel)%nat -> (Z.to_nat (len p) <= fuel)%nat ->
  snd (send_frame p a) = Ret tt /\
  exists b', read_frame fuel b = (b', Ret p) /\ pending b' = rest.
Proof.
  intros Hha Hhb Hl Ha Hb Hf4 Hfp.
  pose proof INT_MAX_below_MAX_DATA.
  destruct (send_frame_spec p a Hha) as (b4 & Hpk & E); [lia |].
  rewrite E in Hb |- *. simpl in Hb. rewrite Ha in Hb. simpl in Hb.
  split; [reflexivity |].
  destruct (read_frame_spec fuel b b4 p rest Hhb Hl Hpk)
    as (b' & cs & E' & Hp & _);
    [rewrite Hb, <- app_assoc; reflexivity | exact Hf4 | exact Hfp |].
  exists b'. auto.
Qed.

Lemma frame_read_back_with_rest_witness :
  snd (send_frame [x68; x69] fresh) = Ret tt /\
  exists b',
    read_frame 4 (accepted (bytewise [x00; x00; x00; x02; x68; x69; x21])) =
    (b', Ret [x68; x69]) /\
    pending b' = [x21].
Proof.
  apply (frame_read_back_with_rest 4 [x68; x69] [x21] fresh
           (accepted (bytewise [x00; x00; x00; x02; x68; x69; x21]))).
  - reflexivity.
  - reflexivity.
  - vm_compute. discriminate.
  - reflexivity.
  - vm_compute. reflexivity.
  - lia.
  - vm_compute. lia.
Defined.

(** ** What the server task writes *)

Lemma faults_were_there (s s' : socket) :
  (faults s = [] -> faults s' = []) -> faults s' <> [] -> faults s <> [].
Proof. intros K H F. apply H. apply K. exact F. Qed.

Lemma server_outcome (fuel : nat) (handler : bytes -> res pyval)
    (s s' : socket) (r : res unit) :
  _server fuel handler s = (s', r) ->
  match r with
  | Ret _ =>
      exists req resp b4,
        handler req = Ret (PyStr resp) /\
        Struct.pack DATA_SIZE_TYPE (len resp) = Ret b4 /\
        outbox s' = outbox s ++ b4 ++ resp
  | Raise _ =>
      outbox s' = outbox s \/
      (faults s <> [] /\
       exists req resp b4 part rest,
         handler req = Ret (PyStr resp) /\
         Struct.pack DATA_SIZE_TYPE (len resp) = Ret b4 /\
         b4 ++ resp = part ++ rest /\
         outbox s' = outbox s ++ part)
  | Spin => outbox s' = outbox s
  end.
Proof.
  rewrite server_unfold. unfold bind at 1.
  destruct (read_frame fuel s) as [s1 r1] eqn:E1.
  destruct (read_frame_reads_only _ _ _ _ E1) as [Ho _].
  pose proof (read_frame_keeps_faults _ _ _ _ E1) as Hk.
  destruct r1 as [req | e |];
    try (intros E; inversion E; subst; auto; fail).
  unfold bind, lift.
  destruct (handler req) as [v | e |] eqn:Hh;
    try (intros E; inversion E; subst; auto; fail).
  destruct v as [resp | z |];
    try (intros E; inversion E; subst; auto; fail).
  unfold reply.
  destruct (len resp >? MAX_DATA);
    [intros E; inversion E; subst; auto |].
  unfold bind, lift.
  destruct (Struct.pack DATA_SIZE_TYPE (len resp)) as [b4 | e |] eqn:Hpk;
    try (intros E; inversion E; subst; auto; fail).
  destruct (sendall b4 s1) as [s2 r2] eqn:E2.
  destruct (sendall_inv _ _ _ _ E2) as (_ & _ & Hk2 & H2).
  destruct r2 as [[] | e |]; [| | contradiction].
  - destruct H2 as [Ho2 _]. intros E3.
    destruct (sendall_inv _ _ _ _ E3) as (_ & _ & _ & H3).
    destruct r as [[] | e |]; [| | contradiction].
    + destruct H3 as [Ho3 _]. exists req, resp, b4.
      split; [exact Hh |]. split; [exact Hpk |].
      rewrite Ho3, Ho2, Ho, <- app_assoc. reflexivity.
    + destruct H3 as ((k & Ho3) & _ & Hf3). right. split.
      * apply (faults_were_there s s1 Hk).
        apply (faults_were_there s1 s2 Hk2). exact Hf3.
      * exists req, resp, b4, (b4 ++ firstn k resp), (skipn k resp).
        split; [exact Hh |]. split; [exact Hpk |]. split.
        -- rewrite <- app_assoc, firstn_skipn. reflexivity.
        -- rewrite Ho3, Ho2, Ho, <- app_assoc. reflexivity.
  - destruct H2 as ((k & Ho2) & _ & Hf2).
    intros E; inversion E; subst; clear E. right. split.
    + apply (faults_were_there s s1 Hk). exact Hf2.
    + exists req, resp, b4, (firstn k b4), (skipn k b4 ++ resp).
      split; [exact Hh |]. split; [exact Hpk |]. split.
      * rewrite app_assoc, firstn_skipn. reflexivity.
      * rewrite Ho2, Ho. reflexivity.
Qed.

(** On a transport that holds, a task that does not return has written
    nothing. *)
Lemma server_failed_silent (fuel : nat) (handler : bytes -> res pyval)
    (s s' : socket) (r : res unit) :
  faults s = [] ->
  _server fuel handler s = (s', r) ->
  match r with Ret _ => True | _ => outbox s' = outbox s end.
Proof.
  intros Hh E. pose proof (server_outcome _ _ _ _ _ E) as H.
  destruct r as [x | e |]; [exact I | | exact H].
  destruct H as [H | [Hf _]]; [exact H | contradiction].
Qed.


Example server_write_cut_short :
  _server 4 echo_handler
    (Socket [[x00; x00; x00; x02; x68; x69]] None [] [] [None; None; None; Some 1%nat]) =
  (Socket [[]] None [x00; x00; x00; x02; x68]
          [Recv 4 [x00; x00; x00; x02]; Recv 2 [x68; x69];
           SendAll [x00; x00; x00; x02]] [],
   Raise (SocketError "Broken pipe")).
Proof. vm_compute. reflexivity. Qed.

(** X3: when the request has been read and the handler returns something
    that is not a [str], the task raises [ValueError] ("handler return
    value must be of type <str>") and has written nothing. *)
Theorem server_rejects_non_str_response
    (fuel : nat) (handler : bytes -> res pyval)
    (s s1 : socket) (req : bytes) (v : pyval) :
  read_frame fuel s = (s1, Ret req) ->
  handler req = Ret v ->
  match v with
  | PyStr _ => False
  | _ => True
  end ->
  _server fuel handler s =
    (s1, Raise (ValueError "handler return value must be of type <str>")) /\
  outbox s1 = outbox s.
Proof.
  intros Hread Hh Hv.
  split; [| apply (read_frame_reads_only _ _ _ _ Hread)].
  rewrite (server_after_read _ _ _ _ _ Hread). unfold bind, lift.
  rewrite Hh. destruct v; [contradiction | reflexivity | reflexivity].
Qed.

Lemma server_rejects_non_str_response_witness :
  _server 4 (fun req => Ret (PyInt (len req)))
          (accepted [[x00; x00; x00; x01]; [x61]]) =
    (mkSocket [[]] None [] [Recv 4 [x00; x00; x00; x01]; Recv 1 [x61]],
     Raise (ValueError "handler return value must be of type <str>")) /\
  outbox (mkSocket [[]] None [] [Recv 4 [x00; x00; x00; x01]; Recv 1 [x61]]) =
  outbox (accepted [[x00; x00; x00; x01]; [x61]]).
Proof.
  apply (server_rejects_non_str_response 4 (fun req => Ret (PyInt (len req)))
           (accepted [[x00; x00; x00; x01]; [x61]])
           (mkSocket [[]] None [] [Recv 4 [x00; x00; x00; x01]; Recv 1 [x61]])
           [x61] (PyInt 1)).
  - vm_compute. reflexivity.
  - reflexivity.
  - exact I.
Defined.

(** ** [request] against any peer *)

Lemma request_after_send (net : network) (fuel : nat) (host : string)
    (port : Z) (d b4 : bytes) (p : peer) :
  len d < MAX_DATA ->
  net host port = Some p ->
  weather p = [] ->
  Struct.pack DATA_SIZE_TYPE (len d) = Ret b4 ->
  request net fuel host port (PyStr d) =
  let (sock, r) :=
    (data <- read_frame fuel ;; close ;;; ret data)
      (mkSocket [] (Some (answer p)) (b4 ++ d)
                [Connect host port; SendAll b4; SendAll d]) in
  (Some sock, r).
Proof.
  intros Hd Hn Hw Hpk. rewrite request_unfold by lia.
  rewrite (bind_step _ _ _ _ _ (connect_spec _ _ _ _ Hn)). rewrite Hw.
  assert (Hs : send_frame d
                 (Socket [] (Some (answer p)) [] [Connect host port] []) =
               (mkSocket [] (Some (answer p)) (b4 ++ d)
                         [Connect host port; SendAll b4; SendAll d], Ret tt)).
  { unfold send_frame, bind, lift. rewrite Hpk. reflexivity. }
  rewrite (bind_step _ _ _ _ _ Hs). reflexivity.
Qed.

(** X4: against any peer, on a transport that holds, in segments of any
    sizes: when the bytes the peer sends back start with a frame of a
    payload [r] of at most [INT_MAX] bytes (whatever follows it),
    [request] returns exactly [r], having written its own frame first, then
    only read, then closed its socket. *)
Theorem request_reads_one_frame
    (net : network) (fuel : nat) (host : string) (port : Z)
    (p : peer) (d b4 r b4' rest : bytes) :
  len d < MAX_DATA ->
  net host port = Some p ->
  weather p = [] ->
  Struct.pack DATA_SIZE_TYPE (len d) = Ret b4 ->
  len r <= INT_MAX ->
  Struct.pack DATA_SIZE_TYPE (len r) = Ret b4' ->
  concat (answer p (b4 ++ d)) = b4' ++ r ++ rest ->
  (4 <= fuel)%nat -> (Z.to_nat (len r) <= fuel)%nat ->
  exists sock cs,
    request net fuel host port (PyStr d) = (Some sock, Ret r) /\
    outbox sock = b4 ++ d /\
    calls sock =
      [Connect host port; SendAll b4; SendAll d] ++ cs ++ [Close] /\
    Forall is_read cs /\
    pending sock = rest.
Proof.
  intros Hd Hn Hw Hpk Hr Hpk' Hans Hf4 Hfr.
  rewrite (request_after_send _ _ _ _ _ _ _ Hd Hn Hw Hpk).
  destruct (read_frame_spec fuel
              (mkSocket [] (Some (answer p)) (b4 ++ d)
                        [Connect host port; SendAll b4; SendAll d])
              b4' r rest eq_refl Hr Hpk')
    as (s2 & cs & E2 & Hp2 & Ho2 & Hc2 & Hreads & _);
    [exact Hans | exact Hf4 | exact Hfr |].
  exists (log Close s2), cs.
  rewrite (bind_step _ _ _ _ _ E2).
  split; [reflexivity |]. split; [exact Ho2 |].
  split; [| split; [exact Hreads |]].
  - simpl. rewrite Hc2, <- app_assoc. reflexivity.
  - unfold pending in *. simpl. exact Hp2.
Qed.

Lemma request_reads_one_frame_witness :
  exists sock cs,
    request (fun _ _ =>
               Some (mkPeer (fun _ => [[x00; x00]; [x00; x01; x7a; x21]]) []))
            4 "localhost" 55555 (PyStr [x68; x69]) =
    (Some sock, Ret [x7a]) /\
    outbox sock = [x00; x00; x00; x02] ++ [x68; x69] /\
    calls sock =
      [Connect "localhost" 55555; SendAll [x00; x00; x00; x02];
       SendAll [x68; x69]] ++ cs ++ [Close] /\
    Forall is_read cs /\
    pending sock = [x21].
Proof.
  apply (request_reads_one_frame
           (fun _ _ =>
              Some (mkPeer (fun _ => [[x00; x00]; [x00; x01; x7a; x21]]) []))
           4 "localhost" 55555
           (mkPeer (fun _ => [[x00; x00]; [x00; x01; x7a; x21]]) [])
           [x68; x69] [x00; x00; x00; x02] [x7a] [x00; x00; x00; x01] [x21]).
  - vm_compute. reflexivity.
  - reflexivity.
  - reflexivity.
  - reflexivity.
  - vm_compute. discriminate.
  - reflexivity.
  - reflexivity.
  - lia.
  - vm_compute. lia.
Defined.

(** ** [request] when the answer stops early *)

Lemma same_length_prefix {A : Type} (a b c d : list A) :
  a ++ b = c ++ d -> length a = length c -> a = c /\ b = d.
Proof.
  revert c. induction a as [| x a IH]; intros [| y c] H Hl;
    try discriminate.
  - auto.
  - simpl in *. inversion H; subst. inversion Hl.
    destruct (IH c H2 H1) as [-> ->]. auto.
Qed.

Lemma read_frame_spins (fuel : nat) (s : socket) :
  faults s = [] ->
  truncated (pending s) ->
  exists s', read_frame fuel s = (s', Spin) /\
             outbox s' = outbox s /\
             exists cs, calls s' = calls s ++ cs /\ Forall is_read cs.
Proof.
  intros Hh Ht.
  assert (H4 : DATA_SIZE_LEN <= INT_MAX)
    by (change DATA_SIZE_LEN with 4; unfold INT_MAX; lia).
  assert (Hsp : exists s', read_frame fuel s = (s', Spin)).
  { unfold read_frame, bind, lift. destruct Ht as [Hshort | Hbody].
    - destruct (recvn_never_ends_in_loop fuel DATA_SIZE_LEN s Hh H4 Hshort)
        as [s' E].
      rewrite E. eauto.
    - destruct Hbody as (b4 & n & body & Hp & Hpk & Hlt).
      destruct (unpack_pack _ _ Hpk) as [Hu Hl4].
      destruct (_recvn fuel DATA_SIZE_LEN s) as [s1 r1] eqn:E1.
      destruct (recvn_inv _ _ _ _ _ E1)
        as (got & _ & Hp1 & _ & _ & _ & _ & Hk & Hr).
      destruct r1 as [x | e |]; [| | eauto].
      + destruct Hr as [-> Hg].
        rewrite Hp in Hp1.
        destruct (same_length_prefix _ _ _ _ Hp1) as [Hb Hrest].
        { unfold len in Hl4, Hg. change DATA_SIZE_LEN with 4 in Hg. lia. }
        subst got. rewrite Hu.
        destruct (recvn_never_ends_in_loop fuel n s1) as [s' E];
          [auto | lia | rewrite <- Hrest; lia |].
        rewrite E. eauto.
      + exfalso. destruct Hr as [Hr | Hr]; [lia | contradiction]. }
  destruct Hsp as [s' E]. exists s'. split; [exact E |].
  exact (read_frame_reads_only _ _ _ _ E).
Qed.

Lemma request_spins_on_truncated_answer
    (net : network) (fuel : nat) (host : string) (port : Z)
    (p : peer) (d b4 : bytes) :
  len d < MAX_DATA ->
  net host port = Some p ->
  weather p = [] ->
  Struct.pack DATA_SIZE_TYPE (len d) = Ret b4 ->
  truncated (concat (answer p (b4 ++ d))) ->
  exists sock cs,
    request net fuel host port (PyStr d) = (Some sock, Spin) /\
    outbox sock = b4 ++ d /\
    calls sock = [Connect host port; SendAll b4; SendAll d] ++ cs /\
    Forall is_read cs.
Proof.
  intros Hd Hn Hw Hpk Ht.
  rewrite (request_after_send _ _ _ _ _ _ _ Hd Hn Hw Hpk).
  destruct (read_frame_spins fuel
              (mkSocket [] (Some (answer p)) (b4 ++ d)
                        [Connect host port; SendAll b4; SendAll d]))
    as (s' & E & Ho & cs & Hc & Hr); [reflexivity | exact Ht |].
  exists s', cs. unfold bind. rewrite E. auto.
Qed.

(** X5: against any peer, on a transport that holds: when the bytes the
    peer sends back before it closes stop short of a whole frame (fewer than
    4 bytes, or fewer payload bytes than a length of at most [INT_MAX]
    announces), [request] never returns and never raises: for every amount
    of fuel it is still reading.  It has written its whole frame, and its
    socket is not closed. *)
Theorem request_never_returns_on_truncated_answer
    (net : network) (fuel : nat) (host : string) (port : Z)
    (p : peer) (d b4 : bytes) :
  len d < MAX_DATA ->
  net host port = Some p ->
  weather p = [] ->
  Struct.pack DATA_SIZE_TYPE (len d) = Ret b4 ->
  truncated (concat (answer p (b4 ++ d))) ->
  exists sock cs,
    request net fuel host port (PyStr d) = (Some sock, Spin) /\
    outbox sock = b4 ++ d /\
    calls sock = [Connect host port; SendAll b4; SendAll d] ++ cs /\
    Forall is_read cs.
Proof.
  apply request_spins_on_truncated_answer.
Qed.

Lemma request_never_returns_on_truncated_answer_witness :
  exists sock cs,
    request (fun _ _ =>
               Some (mkPeer (fun _ => [[x00; x00; x00; x05; x61; x62]]) []))
            1000 "localhost" 55555 (PyStr [x68; x69]) = (Some sock, Spin) /\
    outbox sock = [x00; x00; x00; x02] ++ [x68; x69] /\
    calls sock =
      [Connect "localhost" 55555; SendAll [x00; x00; x00; x02];
       SendAll [x68; x69]] ++ cs /\
    Forall is_read cs.
Proof.
  apply (request_never_returns_on_truncated_answer
           (fun _ _ =>
              Some (mkPeer (fun _ => [[x00; x00; x00; x05; x61; x62]]) []))
           1000 "localhost" 55555
           (mkPeer (fun _ => [[x00; x00; x00; x05; x61; x62]]) [])
           [x68; x69] [x00; x00; x00; x02]).
  - vm_compute. reflexivity.
  - reflexivity.
  - reflexivity.
  - reflexivity.
  - right. exists [x00; x00; x00; x05], 5, [x61; x62].
    split; [reflexivity |]. split; [reflexivity |].
    split; [vm_compute; reflexivity | vm_compute; discriminate].
Defined.

(** ** [request] when the announced length is too large for [recv] *)

Lemma unpack_len (b : bytes) (n : Z) :
  Struct.unpack DATA_SIZE_TYPE b = Ret n -> len b = DATA_SIZE_LEN.
Proof.
  unfold Struct.unpack, DATA_SIZE_TYPE. rewrite String.eqb_refl.
  destruct b as [| b3 [| b2 [| b1 [| b0 [| x b]]]]];
    try (intros E; discriminate E).
  intros _. reflexivity.
Qed.

(** X11: against any peer, on a transport that holds: when the first 4
    bytes the peer sends back announce a length above [INT_MAX],
    [request] raises [OverflowError] at the [recv] that asks for the
    payload, whatever follows those 4 bytes; it has written its frame, read
    the 4 bytes, and its socket is not closed. *)
Theorem request_overflows_on_large_announced_length
    (net : network) (fuel : nat) (host : string) (port : Z)
    (p : peer) (d b4 b4' rest : bytes) (n : Z) :
  len d < MAX_DATA ->
  net host port = Some p ->
  weather p = [] ->
  Struct.pack DATA_SIZE_TYPE (len d) = Ret b4 ->
  Struct.unpack DATA_SIZE_TYPE b4' = Ret n ->
  INT_MAX < n ->
  concat (answer p (b4 ++ d)) = b4' ++ rest ->
  (4 <= fuel)%nat ->
  exists sock cs,
    request net fuel host port (PyStr d) =
    (Some sock,
     Raise (OverflowError "signed integer is greater than maximum")) /\
    outbox sock = b4 ++ d /\
    calls sock = [Connect host port; SendAll b4; SendAll d] ++ cs /\
    Forall is_read cs /\
    pending sock = rest.
Proof.
  intros Hd Hn Hw Hpk Hu Hbig Hans Hf4.
  rewrite (request_after_send _ _ _ _ _ _ _ Hd Hn Hw Hpk).
  pose proof (unpack_len _ _ Hu) as Hl4.
  set (s1 := mkSocket [] (Some (answer p)) (b4 ++ d)
               [Connect host port; SendAll b4; SendAll d]).
  assert (Hp1 : pending s1 = b4' ++ rest) by exact Hans.
  destruct (recvn_returns fuel DATA_SIZE_LEN s1)
    as (s2 & cs & E & Hp2 & Ho2 & Hc2 & Hb2 & Hh2).
  { reflexivity. }
  { change DATA_SIZE_LEN with 4. unfold INT_MAX. lia. }
  { rewrite Hp1, len_app. pose proof (len_nonneg rest). lia. }
  { change DATA_SIZE_LEN with 4. lia. }
  destruct (prefix_is_firstn _ _ _ DATA_SIZE_LEN Hp1) as [F K].
  { rewrite Hl4. reflexivity. }
  rewrite <- F in E. rewrite <- K in Hp2.
  destruct fuel as [| fuel']; [lia |].
  assert (Er : read_frame (S fuel') s1 =
               (s2, Raise (OverflowError
                             "signed integer is greater than maximum"))).
  { unfold read_frame, bind, lift. rewrite E, Hu.
    apply recvn_overflow. exact Hbig. }
  exists s2, cs. unfold bind. rewrite Er.
  split; [reflexivity |]. split; [exact Ho2 |].
  split; [exact Hc2 |]. split; [| exact Hp2].
  eapply reads_of_budget. exact Hb2.
Qed.

Lemma request_overflows_on_large_announced_length_witness :
  exists sock cs,
    request (fun _ _ => Some (mkPeer (fun _ => [[x80; x00; x00; x00]]) []))
            4 "localhost" 55555 (PyStr [x68; x69]) =
    (Some sock,
     Raise (OverflowError "signed integer is greater than maximum")) /\
    outbox sock = [x00; x00; x00; x02] ++ [x68; x69] /\
    calls sock =
      [Connect "localhost" 55555; SendAll [x00; x00; x00; x02];
       SendAll [x68; x69]] ++ cs /\
    Forall is_read cs /\
    pending sock = [].
Proof.
  apply (request_overflows_on_large_announced_length
           (fun _ _ => Some (mkPeer (fun _ => [[x80; x00; x00; x00]]) []))
           4 "localhost" 55555
           (mkPeer (fun _ => [[x80; x00; x00; x00]]) [])
           [x68; x69] [x00; x00; x00; x02] [x80; x00; x00; x00] []
           2147483648).
  - vm_compute. reflexivity.
  - reflexivity.
  - reflexivity.
  - reflexivity.
  - reflexivity.
  - reflexivity.
  - reflexivity.
  - lia.
Defined.

Section FailedTask.

Variables sfuel cfuel : nat.
Variables cut_in cut_out : bytes -> list bytes.
Variable host : string.
Variable port : Z.
Variable handler : bytes -> res pyval.

Hypothesis cut_out_faithful : faithful cut_out.

(** A task that raises has answered nothing, so the client that waits for
    its answer waits for ever. *)
Lemma request_of_failed_task (d b4 : bytes) (e : exn) :
  len d < MAX_DATA ->
  Struct.pack DATA_SIZE_TYPE (len d) = Ret b4 ->
  snd (_server sfuel handler (accepted (cut_in (b4 ++ d)))) = Raise e ->
  outbox (served sfuel handler cut_in (b4 ++ d)) = [] /\
  exists sock cs,
    request (listen sfuel cut_in cut_out host port handler)
            cfuel host port (PyStr d) = (Some sock, Spin) /\
    outbox sock = b4 ++ d /\
    calls sock = [Connect host port; SendAll b4; SendAll d] ++ cs /\
    Forall is_read cs.
Proof.
  intros Hd Hpk Hfail.
  assert (Hsilent : outbox (served sfuel handler cut_in (b4 ++ d)) = []).
  { unfold served.
    destruct (_server sfuel handler (accepted (cut_in (b4 ++ d))))
      as [s' r] eqn:Es.
    pose proof (server_failed_silent sfuel handler
                  (accepted (cut_in (b4 ++ d))) s' r eq_refl Es) as Ho.
    simpl in Hfail |- *. rewrite Hfail in Ho. exact Ho. }
  split; [exact Hsilent |].
  apply (request_spins_on_truncated_answer
           (listen sfuel cut_in cut_out host port handler) cfuel host port
           (mkPeer
              (fun sent => cut_out (outbox (served sfuel handler cut_in sent)))
              [])
           d b4 Hd).
  - apply listen_accepts.
  - reflexivity.
  - exact Hpk.
  - left. simpl. rewrite cut_out_faithful, Hsilent. reflexivity.
Qed.

End FailedTask.

(** X6: a client of a listening server, on a transport that holds, whose
    handler, on a request of at most [INT_MAX] bytes that has reached it
    whole, does not produce a string that can be encoded (it raises, or
    returns something that is not a [str], or a string of [MAX_DATA] bytes
    or more): the server task raises and has written nothing, and
    [request], having written its frame, never returns and never raises;
    its socket stays open. *)
Theorem request_never_returns_when_handler_fails
    (sfuel cfuel : nat) (cut_in cut_out : bytes -> list bytes)
    (host : string) (port : Z) (handler : bytes -> res pyval) (d : bytes) :
  faithful cut_in -> faithful cut_out ->
  len d <= INT_MAX ->
  (4 <= sfuel)%nat -> (Z.to_nat (len d) <= sfuel)%nat ->
  match handler d with
  | Ret (PyStr r) => MAX_DATA <= len r
  | Ret _ => True
  | Raise _ => True
  | Spin => False
  end ->
  exists b4 e sock cs,
    Struct.pack DATA_SIZE_TYPE (len d) = Ret b4 /\
    snd (_server sfuel handler (accepted (cut_in (b4 ++ d)))) = Raise e /\
    outbox (served sfuel handler cut_in (b4 ++ d)) = [] /\
    request (listen sfuel cut_in cut_out host port handler)
            cfuel host port (PyStr d) = (Some sock, Spin) /\
    outbox sock = b4 ++ d /\
    calls sock = [Connect host port; SendAll b4; SendAll d] ++ cs /\
    Forall is_read cs.
Proof.
  intros Hin Hout Hd Hf4 Hfd Hh.
  pose proof INT_MAX_below_MAX_DATA as Hlim.
  destruct (pack_in_range (len d)) as [b4 Hpk];
    [pose proof (len_nonneg d); lia |].
  destruct (read_frame_spec sfuel (accepted (cut_in (b4 ++ d))) b4 d []
              eq_refl Hd Hpk)
    as (s1 & cs1 & E & _); [| exact Hf4 | exact Hfd |].
  { unfold pending. simpl. rewrite Hin, !app_nil_r. reflexivity. }
  assert (Hfail : exists e,
             snd (_server sfuel handler (accepted (cut_in (b4 ++ d)))) =
             Raise e).
  { rewrite (server_after_read _ _ _ _ _ E). unfold bind, lift.
    destruct (handler d) as [[r | z |] | e |]; try contradiction;
      try (eexists; reflexivity).
    destruct (Z.eq_dec (len r) MAX_DATA) as [Heq | Hne].
    - rewrite reply_spec, send_frame_at_limit by lia. eexists. reflexivity.
    - rewrite reply_too_long by lia. eexists. reflexivity. }
  destruct Hfail as [e Hfail].
  destruct (request_of_failed_task sfuel cfuel cut_in cut_out host port handler
              Hout d b4 e ltac:(lia) Hpk Hfail)
    as (Hsilent & sock & cs & Ereq & Ho & Hc & Hr).
  exists b4, e, sock, cs. auto 10.
Qed.

Lemma request_never_returns_when_handler_fails_witness :
  exists b4 e sock cs,
    Struct.pack DATA_SIZE_TYPE (len [x61]) = Ret b4 /\
    snd (_server 4 (fun _ => Raise (ValueError "handler failed"))
                 (accepted (bytewise (b4 ++ [x61])))) = Raise e /\
    outbox (served 4 (fun _ => Raise (ValueError "handler failed"))
                   bytewise (b4 ++ [x61])) = [] /\
    request (listen 4 bytewise bytewise "localhost" 55555
                    (fun _ => Raise (ValueError "handler failed")))
            1000 "localhost" 55555 (PyStr [x61]) = (Some sock, Spin) /\
    outbox sock = b4 ++ [x61] /\
    calls sock =
      [Connect "localhost" 55555; SendAll b4; SendAll [x61]] ++ cs /\
    Forall is_read cs.
Proof.
  apply (request_never_returns_when_handler_fails 4 1000 bytewise bytewise
           "localhost" 55555 (fun _ => Raise (ValueError "handler failed"))
           [x61] bytewise_faithful bytewise_faithful).
  - vm_compute. discriminate.
  - lia.
  - vm_compute. lia.
  - exact I.
Defined.

(** ** When [request] closes its socket *)




Example request_write_cut_short :
  request (fun _ _ => Some (mkPeer (fun _ => []) [None; Some 1%nat]))
          4 "localhost" 55555 (PyStr [x68; x69]) =
  (Some (Socket [] (Some (fun _ => [])) [x00; x00; x00; x02; x68]
                [Connect "localhost" 55555; SendAll [x00; x00; x00; x02]] []),
   Raise (SocketError "Broken pipe")).
Proof. vm_compute. reflexivity. Qed.

(** ** A request and its answer *)

(** X8: against a listening server, on a transport that holds, with the
    bytes cut in any way in both directions: when the payload has at most
    [INT_MAX] bytes and the handler returns, on exactly that payload, a
    string of at most [INT_MAX] bytes, [request] returns exactly that
    string. *)
Theorem request_returns_handler_response
    (fuel : nat) (cut_in cut_out : bytes -> list bytes)
    (host : string) (port : Z) (handler : bytes -> res pyval) (d r : bytes) :
  faithful cut_in -> faithful cut_out ->
  len d <= INT_MAX ->
  handler d = Ret (PyStr r) ->
  len r <= INT_MAX ->
  (4 <= fuel)%nat ->
  (Z.to_nat (len d) <= fuel)%nat -> (Z.to_nat (len r) <= fuel)%nat ->
  exists sock,
    request (listen fuel cut_in cut_out host port handler)
            fuel host port (PyStr d) = (Some sock, Ret r).
Proof.
  intros Hin Hout Hd Hh Hr Hf4 Hfd Hfr.
  destruct (request_served fuel cut_in cut_out host port handler Hin Hout
              d r Hd Hh Hr Hf4 Hfd Hfr)
    as (_ & _ & sock & _ & _ & _ & E & _).
  exists sock. exact E.
Qed.

Lemma request_returns_handler_response_witness :
  exists sock,
    request (listen 4 bytewise bytewise "localhost" 55555
                    (fun req => Ret (PyStr (rev req))))
            4 "localhost" 55555 (PyStr [x61; x62; x63]) =
    (Some sock, Ret [x63; x62; x61]).
Proof.
  apply (request_returns_handler_response 4 bytewise bytewise
           "localhost" 55555 (fun req => Ret (PyStr (rev req)))
           [x61; x62; x63] [x63; x62; x61]
           bytewise_faithful bytewise_faithful).
  - vm_compute. discriminate.
  - reflexivity.
  - vm_compute. discriminate.
  - lia.
  - vm_compute. lia.
  - vm_compute. lia.
Defined.

(** ** How many reads [_recvn] makes *)

Lemma recvn_loop_count (fuel : nat) :
  forall (n m : Z) (buf : list bytes) (s : socket),
    faults s = [] -> n - m <= INT_MAX ->
    n - m <= len (pending s) ->
    exists cs,
      calls (fst (_recvn_loop fuel n m buf s)) = calls s ++ cs /\
      len cs <= Z.max 0 (n - m) /\
      Forall fruitful cs.
Proof.
  induction fuel as [| fuel IH]; intros n m buf s Hh Hmax Hs.
  - exists []. simpl. destruct (Z.ltb_spec m n); simpl;
      rewrite app_nil_r, len_nil; repeat split; try lia; constructor.
  - destruct (Z.lt_ge_cases m n) as [Hlt | Hge].
    + destruct (recv_spec (n - m) s)
        as (g1 & s1 & Er & Hp & Hl & _ & Hc & Hh1 & Hne);
        [lia | exact Hh |].
      rewrite (recvn_loop_step _ _ _ _ _ _ _ Hlt Er).
      assert (G : g1 <> []).
      { apply Hne; [lia |]. intros N. rewrite N, len_nil in Hs. lia. }
      assert (Hg : 0 < len g1).
      { destruct g1; [congruence |]. unfold len. simpl. lia. }
      destruct (IH n (m + len g1) (buf ++ [g1]) s1) as (cs & Hcs & Hn & Hf).
      { exact Hh1. }
      { lia. }
      { rewrite Hp, len_app in Hs. lia. }
      exists (Recv (n - m) g1 :: cs). split; [| split].
      * rewrite Hcs, Hc, <- app_assoc. reflexivity.
      * unfold len in *. simpl length. lia.
      * constructor; [exact G | exact Hf].
    + rewrite recvn_loop_done by lia. exists []. simpl.
      rewrite app_nil_r, len_nil. repeat split; try lia. constructor.
Qed.

(** X9: on a transport that holds, when [n] is a size [recv] accepts and
    at least [n] bytes are still to come, [_recvn(sock, n)] makes at most
    [n] calls to [recv], each of which returned at least one byte: it never
    reads empty-handed and never more often than once per byte. *)
Theorem recvn_reads_at_most_n_times (fuel : nat) (n : Z) (s : socket) :
  faults s = [] -> n <= INT_MAX ->
  n <= len (pending s) ->
  exists cs,
    calls (fst (_recvn fuel n s)) = calls s ++ cs /\
    len cs <= Z.max 0 n /\
    Forall fruitful cs.
Proof.
  intros Hh Hmax H.
  destruct (recvn_loop_count fuel n 0 [] s) as (cs & Hc & Hn & Hf);
    [exact Hh | lia | lia |].
  exists cs. rewrite Z.sub_0_r in Hn. auto.
Qed.

Lemma recvn_reads_at_most_n_times_witness :
  exists cs,
    calls (fst (_recvn 9 3 (accepted [[x61; x62]; [x63; x64]]))) =
    calls (accepted [[x61; x62]; [x63; x64]]) ++ cs /\
    len cs <= Z.max 0 3 /\
    Forall fruitful cs.
Proof.
  apply (recvn_reads_at_most_n_times 9 3 (accepted [[x61; x62]; [x63; x64]])).
  - reflexivity.
  - vm_compute. discriminate.
  - vm_compute. discriminate.
Defined.

(** ** The length a reader decodes *)

Lemma Z_of_byte_range (b : byte) : 0 <= Struct.Z_of_byte b < 2 ^ 8.
Proof.
  unfold Struct.Z_of_byte. pose proof (Byte.to_N_bounded b).
  change (2 ^ 8) with 256. lia.
Qed.

Lemma byte_of_Z_of_byte (b : byte) (z : Z) :
  Z.land z 255 = Struct.Z_of_byte b -> Struct.byte_of_Z z = b.
Proof.
  intros H. unfold Struct.byte_of_Z. rewrite H. unfold Struct.Z_of_byte.
  rewrite N2Z.id, Byte.of_to_N. reflexivity.
Qed.

Lemma bits_above (v k i : Z) :
  0 <= v < 2 ^ k -> 0 <= k <= i -> Z.testbit v i = false.
Proof.
  intros Hv Hi. rewrite <- (Z.mod_small v (2 ^ k)) by lia.
  apply Z.mod_pow2_bits_high. lia.
Qed.

Lemma below_of_bits (v k : Z) :
  0 <= k -> 0 <= v ->
  (forall i, k <= i -> Z.testbit v i = false) -> v < 2 ^ k.
Proof.
  intros Hk Hv H.
  assert (E : v = v mod 2 ^ k).
  { apply Z.bits_inj'. intros i Hi. destruct (Z.lt_ge_cases i k).
    - rewrite Z.mod_pow2_bits_low by lia. reflexivity.
    - rewrite Z.mod_pow2_bits_high by lia. apply H. lia. }
  rewrite E. apply Z.mod_pos_bound. apply Z.pow_pos_nonneg; lia.
Qed.

(** The bits of four bytes joined as [unpack] joins them. *)
Lemma joined_testbit (b3 b2 b1 b0 i : Z) :
  0 <= b3 < 2 ^ 8 -> 0 <= b2 < 2 ^ 8 -> 0 <= b1 < 2 ^ 8 -> 0 <= b0 < 2 ^ 8 ->
  0 <= i ->
  Z.testbit (Z.lor (Z.lor (Z.lor (Z.shiftl b3 24) (Z.shiftl b2 16))
                          (Z.shiftl b1 8)) b0) i =
  if i <? 8 then Z.testbit b0 i
  else if i <? 16 then Z.testbit b1 (i - 8)
  else if i <? 24 then Z.testbit b2 (i - 16)
  else Z.testbit b3 (i - 24).
Proof.
  intros H3 H2 H1 H0 Hi.
  rewrite !Z.lor_spec, !Z.shiftl_spec by lia.
  destruct (Z.ltb_spec i 8); [| destruct (Z.ltb_spec i 16);
    [| destruct (Z.ltb_spec i 24)]].
  - rewrite (Z.testbit_neg_r _ (i - 24)), (Z.testbit_neg_r _ (i - 16)),
      (Z.testbit_neg_r _ (i - 8)) by lia. reflexivity.
  - rewrite (Z.testbit_neg_r _ (i - 24)), (Z.testbit_neg_r _ (i - 16)),
      (bits_above b0 8 i) by lia.
    simpl. apply orb_false_r.
  - rewrite (Z.testbit_neg_r _ (i - 24)), (bits_above b1 8 (i - 8)),
      (bits_above b0 8 i) by lia.
    simpl. rewrite !orb_false_r. reflexivity.
  - rewrite (bits_above b2 8 (i - 16)), (bits_above b1 8 (i - 8)),
      (bits_above b0 8 i) by lia.
    rewrite !orb_false_r. reflexivity.
Qed.

Lemma Ret_inj {A : Type} (a b : A) : Ret a = Ret b -> a = b.
Proof. congruence. Qed.

(** Taking each byte back out of the joined value. *)
Lemma joined_bytes (b3 b2 b1 b0 : Z) :
  0 <= b3 < 2 ^ 8 -> 0 <= b2 < 2 ^ 8 -> 0 <= b1 < 2 ^ 8 -> 0 <= b0 < 2 ^ 8 ->
  let v := Z.lor (Z.lor (Z.lor (Z.shiftl b3 24) (Z.shiftl b2 16))
                        (Z.shiftl b1 8)) b0 in
  Z.land (Z.shiftr v 24) 255 = b3 /\
  Z.land (Z.shiftr v 16) 255 = b2 /\
  Z.land (Z.shiftr v 8) 255 = b1 /\
  Z.land v 255 = b0.
Proof.
  intros H3 H2 H1 H0 v.
  assert (J : forall k b,
             0 <= k ->
             (forall i, 0 <= i < 8 -> Z.testbit v (i + k) = Z.testbit b i) ->
             0 <= b < 2 ^ 8 ->
             Z.land (Z.shiftr v k) 255 = b).
  { intros k b Hk Hbits Hb. apply Z.bits_inj'. intros i Hi.
    change 255 with (Z.ones 8). rewrite Z.land_ones by lia.
    change (2 ^ 8) with 256. rewrite mod256_testbit by lia.
    rewrite Z.shiftr_spec by lia.
    destruct (Z.ltb_spec i 8); simpl.
    - apply Hbits. lia.
    - symmetry. apply (bits_above b 8); lia. }
  assert (T : forall i, 0 <= i ->
             Z.testbit v i =
             if i <? 8 then Z.testbit b0 i
             else if i <? 16 then Z.testbit b1 (i - 8)
             else if i <? 24 then Z.testbit b2 (i - 16)
             else Z.testbit b3 (i - 24)).
  { intros i Hi. apply joined_testbit; assumption. }
  split; [| split; [| split]].
  - apply J; [lia | | exact H3]. intros i Hi. rewrite T by lia.
    destruct (Z.ltb_spec (i + 24) 8); [lia |].
    destruct (Z.ltb_spec (i + 24) 16); [lia |].
    destruct (Z.ltb_spec (i + 24) 24); [lia |]. f_equal. lia.
  - apply J; [lia | | exact H2]. intros i Hi. rewrite T by lia.
    destruct (Z.ltb_spec (i + 16) 8); [lia |].
    destruct (Z.ltb_spec (i + 16) 16); [lia |].
    destruct (Z.ltb_spec (i + 16) 24); [| lia]. f_equal. lia.
  - apply J; [lia | | exact H1]. intros i Hi. rewrite T by lia.
    destruct (Z.ltb_spec (i + 8) 8); [lia |].
    destruct (Z.ltb_spec (i + 8) 16); [| lia]. f_equal. lia.
  - rewrite <- (Z.shiftr_0_r v). apply J; [lia | | exact H0].
    intros i Hi. rewrite T by lia.
    destruct (Z.ltb_spec (i + 0) 8); [| lia]. f_equal. lia.
Qed.

(** X10: whatever 4 bytes a reader decodes as a length, the result is a
    length the other side could have sent: it lies in [0, MAX_DATA), and
    packing it gives the same 4 bytes back; a string of any other length is
    refused by [struct.unpack]. *)
Theorem unpacked_length_is_a_length (b : bytes) (n : Z) :
  Struct.unpack DATA_SIZE_TYPE b = Ret n ->
  len b = DATA_SIZE_LEN /\
  0 <= n < MAX_DATA /\
  Struct.pack DATA_SIZE_TYPE n = Ret b.
Proof.
  unfold Struct.unpack, DATA_SIZE_TYPE.
  rewrite String.eqb_refl.
  destruct b as [| b3 [| b2 [| b1 [| b0 [| x b]]]]];
    try (intros E; discriminate E).
  pose proof (Z_of_byte_range b3) as H3. pose proof (Z_of_byte_range b2) as H2.
  pose proof (Z_of_byte_range b1) as H1. pose proof (Z_of_byte_range b0) as H0.
  remember (Struct.Z_of_byte b3) as B3 eqn:E3.
  remember (Struct.Z_of_byte b2) as B2 eqn:E2.
  remember (Struct.Z_of_byte b1) as B1 eqn:E1.
  remember (Struct.Z_of_byte b0) as B0 eqn:E0.
  intros E. apply Ret_inj in E. rename E into Hn.
  destruct (joined_bytes B3 B2 B1 B0 H3 H2 H1 H0) as (J3 & J2 & J1 & J0).
  rewrite Hn in J3, J2, J1, J0.
  assert (Hpos : 0 <= n).
  { rewrite <- Hn.
    apply Z.lor_nonneg. split; [| lia].
    apply Z.lor_nonneg. split; [| apply Z.shiftl_nonneg; lia].
    apply Z.lor_nonneg. split; apply Z.shiftl_nonneg; lia. }
  assert (Hlt : n < 2 ^ 32).
  { apply below_of_bits; [lia | exact Hpos |]. intros i Hi.
    rewrite <- Hn, joined_testbit by lia.
    destruct (Z.ltb_spec i 8); [lia |]. destruct (Z.ltb_spec i 16); [lia |].
    destruct (Z.ltb_spec i 24); [lia |]. apply (bits_above B3 8); lia. }
  split; [reflexivity |]. split; [change MAX_DATA with (2 ^ 32); lia |].
  unfold Struct.pack. rewrite String.eqb_refl.
  change (2 ^ 32) with 4294967296 in Hlt.
  destruct (Z.leb_spec 0 n); [| lia].
  destruct (Z.leb_spec n 4294967295); [| lia].
  unfold andb.
  rewrite E3 in J3. rewrite E2 in J2. rewrite E1 in J1. rewrite E0 in J0.
  rewrite (byte_of_Z_of_byte b3 _ J3), (byte_of_Z_of_byte b2 _ J2),
    (byte_of_Z_of_byte b1 _ J1), (byte_of_Z_of_byte b0 _ J0).
  reflexivity.
Qed.

Lemma unpacked_length_is_a_length_witness :
  len [x00; x00; x01; x02] = DATA_SIZE_LEN /\
  0 <= 258 < MAX_DATA /\
  Struct.pack DATA_SIZE_TYPE 258 = Ret [x00; x00; x01; x02].
Proof.
  apply (unpacked_length_is_a_length [x00; x00; x01; x02] 258).
  reflexivity.
Defined.
